(** * Websocket_httpServer: a shallow embedding of [src/server.ts] and
    [src/httpServer.ts]

    The two TypeScript files implement a line-delimited echo server and a
    small HTTP/1.1 server on top of Node's [net] sockets.  Byte buffers are
    lists of bytes, JavaScript numbers that hold lengths and offsets are
    integers in [Z] (they can become negative, as in the source), and the
    asynchronous code is written in a state-and-exception monad over an
    explicit world (connection flags, the socket's pending events and write
    log, the per-connection dynamic buffer, and the closures of the body
    readers). *)

From Stdlib Require Import ZArith List Lia Bool String Ascii.
From Stdlib Require Import Strings.Byte.
Import ListNotations.

#[local] Open Scope Z_scope.

(** ** Node's [Buffer] *)

Definition Buffer := list byte.

Module Buf.

(** [b.length] *)
Definition blen (b : Buffer) : Z := Z.of_nat (List.length b).

(** [Buffer.alloc(n)]: [n] zero bytes. *)
Definition alloc (n : Z) : Buffer := repeat x00 (Z.to_nat n).

(** [Buffer.from(s)] for a string of one-byte characters. *)
Definition from (s : string) : Buffer := list_byte_of_string s.

(** [Buffer.from('')] *)
Definition empty : Buffer := from EmptyString.

(** [b.toString('latin1')] *)
Definition toString (b : Buffer) : string := string_of_list_byte b.

(** How [subarray], [slice] and [copyWithin] read an index: negative
    indices count from the end, everything is clamped to [0 .. len]. *)
Definition relIndex (i len : Z) : Z :=
  if i <? 0 then Z.max (len + i) 0 else Z.min i len.

(** [b.subarray(s, e)] (and [b.slice(s, e)], which is the same on a
    Buffer), as a value. *)
Definition subarray (b : Buffer) (s e : Z) : Buffer :=
  let s' := relIndex s (blen b) in
  let e' := relIndex e (blen b) in
  firstn (Z.to_nat (e' - s')) (skipn (Z.to_nat s') b).

(** [b.copyWithin(target, start, end)]: the new content of [b]. *)
Definition copyWithin (b : Buffer) (target start end_ : Z) : Buffer :=
  let len := blen b in
  let to := relIndex target len in
  let from := relIndex start len in
  let final := relIndex end_ len in
  let count := Z.min (final - from) (len - to) in
  if 0 <? count
  then firstn (Z.to_nat to) b
       ++ firstn (Z.to_nat count) (skipn (Z.to_nat from) b)
       ++ skipn (Z.to_nat (to + count)) b
  else b.

(** [source.copy(target, targetStart, 0)]: the new content of [target],
    or [None] when Node raises its out-of-range error (a negative
    [targetStart]).  Nothing is copied when [targetStart] is at or after
    the end of [target]; otherwise as many bytes as fit. *)
Definition copy (source target : Buffer) (targetStart : Z) : option Buffer :=
  if targetStart <? 0 then None
  else
    let t := Z.to_nat targetStart in
    Some (firstn t target
          ++ firstn (List.length target - t) source
          ++ skipn (t + List.length source) target).

Fixpoint isPrefix (p b : Buffer) : bool :=
  match p, b with
  | [], _ => true
  | _ :: _, [] => false
  | x :: p', y :: b' => Byte.eqb x y && isPrefix p' b'
  end.

Fixpoint indexOfFrom (b pat : Buffer) (i : Z) : Z :=
  if isPrefix pat b then i
  else match b with
       | [] => -1
       | _ :: b' => indexOfFrom b' pat (i + 1)
       end.

(** [b.indexOf(pat)]: the offset of the first occurrence, or [-1]. *)
Definition indexOf (b pat : Buffer) : Z := indexOfFrom b pat 0.

(** [a.equals(b)] *)
Fixpoint equals (a b : Buffer) : bool :=
  match a, b with
  | [], [] => true
  | x :: a', y :: b' => Byte.eqb x y && equals a' b'
  | _, _ => false
  end.

End Buf.

(** ** JavaScript values and exceptions *)

(** The values a property read can give in this program. *)
Inductive jsval :=
| JUndefined
| JNum (n : Z)
| JStr (s : string).

(** Thrown objects.  [HTTPError] is the class of the source (its constructor
    stores its first argument in [statusCode]); [Error] is a plain error,
    also what the transport delivers; [RangeError] is the out-of-range error
    of [Buffer.copy]. *)
Inductive exn :=
| HTTPError (statusCode : Z) (message : string)
| Error (message : string)
| RangeError (message : string).

(** [exc instanceof HTTPError] *)
Definition instanceofHTTPError (exc : exn) : bool :=
  match exc with HTTPError _ _ => true | _ => false end.

(** [exc.message] *)
Definition message (exc : exn) : string :=
  match exc with
  | HTTPError _ m | Error m | RangeError m => m
  end.

(** [exc.name] *)
Definition name (exc : exn) : string :=
  match exc with
  | HTTPError _ _ => "HTTPError"%string
  | Error _ => "Error"%string
  | RangeError _ => "RangeError"%string
  end.

(** [exc[p]] for the property names this program defines or reads:
    [message] and [name] on every error, [statusCode] on an [HTTPError]
    (the one property its constructor adds).  A name that is none of these,
    [code] among them, is not a property of the object and reads as
    [undefined]. *)
Definition getProp (exc : exn) (p : string) : jsval :=
  if String.eqb p "message" then JStr (message exc)
  else if String.eqb p "name" then JStr (name exc)
  else if String.eqb p "statusCode" then
    match exc with HTTPError c _ => JNum c | _ => JUndefined end
  else JUndefined.

(** A line feed, for the string literals of the source that end in [\n]. *)
Definition LF : string := String "010"%char EmptyString.

(** ** The monad: state, exceptions, a promise that never settles, fuel *)

Inductive outcome (S A : Type) :=
| Ret (a : A) (s : S)          (* normal completion *)
| Throw (e : exn) (s : S)      (* an exception; the mutations so far persist *)
| Pending (s : S)              (* an awaited promise that is never settled *)
| OutOfFuel.                   (* the loop bound of the model was reached *)
Arguments Ret {S A} a s.
Arguments Throw {S A} e s.
Arguments Pending {S A} s.
Arguments OutOfFuel {S A}.

Definition M (S A : Type) : Type := S -> outcome S A.

Definition ret {S A} (a : A) : M S A := fun s => Ret a s.
Definition throw {S A} (e : exn) : M S A := fun s => Throw e s.
Definition bind {S A B} (m : M S A) (k : A -> M S B) : M S B :=
  fun s => match m s with
           | Ret a s' => k a s'
           | Throw e s' => Throw e s'
           | Pending s' => Pending s'
           | OutOfFuel => OutOfFuel
           end.
Definition gets {S A} (f : S -> A) : M S A := fun s => Ret (f s) s.
Definition modify {S} (f : S -> S) : M S unit := fun s => Ret tt (f s).

(** [try { m } catch (exc) { h exc }] *)
Definition tryCatch {S A} (m : M S A) (h : exn -> M S A) : M S A :=
  fun s => match m s with
           | Throw e s' => h e s'
           | o => o
           end.

(** [try { m } finally { f }], for a finaliser that completes normally. *)
Definition tryFinally {S A} (m : M S A) (f : M S unit) : M S A :=
  fun s => match m s with
           | Ret a s' => bind f (fun _ => ret a) s'
           | Throw e s' => bind f (fun _ => throw e) s'
           | o => o
           end.

(** Run a computation on a component of the state. *)
Definition zoom {S T A} (proj : S -> T) (upd : T -> S -> S) (m : M T A) : M S A :=
  fun s => match m (proj s) with
           | Ret a t => Ret a (upd t s)
           | Throw e t => Throw e (upd t s)
           | Pending t => Pending (upd t s)
           | OutOfFuel => OutOfFuel
           end.

Declare Scope js_scope.
Delimit Scope js_scope with js.
Notation "x <- m ;; k" := (bind m (fun x => k))
  (at level 61, m at next level, right associativity) : js_scope.
Notation "m ;; k" := (bind m (fun _ => k))
  (at level 61, right associativity) : js_scope.
#[local] Open Scope js_scope.

(** [source.copy(target, targetStart, 0)] as a step of a computation: the
    new content of [target], or Node's out-of-range error. *)
Definition copyInto {S} (source target : Buffer) (targetStart : Z) : M S Buffer :=
  match Buf.copy source target targetStart with
  | Some target' => ret target'
  | None => throw (RangeError "The value of targetStart is out of range")
  end.

(** The capacity loop of [bufPush]:
    [while (cap < newLen) { cap *= 2; }].  The fuel bounds the number of
    doublings; [growCap_enough] below shows that [Z.to_nat newLen] doublings
    always suffice from a positive capacity. *)
Fixpoint growCap (fuel : nat) (cap newLen : Z) : Z :=
  if cap <? newLen
  then match fuel with
       | O => cap
       | S fuel' => growCap fuel' (cap * 2) newLen
       end
  else cap.

(** ** [src/server.ts]: the line protocol *)

Module LineServer.

(** [type DynBuf = { data, length, start }] *)
Record DynBuf := { data : Buffer; length : Z; start : Z }.

(** [bufPush(buf, data)] *)
Definition bufPush (d : Buffer) : M DynBuf unit :=
  buf <- gets id ;;
  let newLen := length buf + Buf.blen d in
  (if length buf <? newLen
   then
     let cap := growCap (Z.to_nat newLen) (Z.max (Buf.blen (data buf)) 32) newLen in
     grown <- copyInto (data buf) (Buf.alloc cap) 0 ;;
     modify (fun b => {| data := grown; length := length b; start := start b |})
   else ret tt) ;;
  buf <- gets id ;;
  data' <- copyInto d (data buf) (length buf) ;;
  modify (fun b => {| data := data'; length := newLen; start := start b |}).

(** [bufPop(buf, len)] (defined in the file, no longer called) *)
Definition bufPop (len : Z) : M DynBuf unit :=
  modify (fun b => {| data := Buf.copyWithin (data b) 0 len (length b);
                      length := length b - len;
                      start := start b |}).

(** [cutMessage(buf)]: messages are separated by ['\n'].  The test
    [buf.start > buf.data.length / 2] is a comparison of real numbers,
    written here without the division. *)
Definition cutMessage : M DynBuf (option Buffer) :=
  buf <- gets id ;;
  let idx := Buf.indexOf (Buf.subarray (data buf) 0 (length buf)) (Buf.from LF) in
  if idx <? 0 then ret None
  else
    let msg := Buf.subarray (data buf) 0 (idx + 1) in
    modify (fun b => {| data := data b; length := length b; start := idx + 1 |}) ;;
    modify (fun b => {| data := data b;
                        length := length b - (idx + 1 - start b);
                        start := start b |}) ;;
    buf <- gets id ;;
    (if Buf.blen (data buf) <? 2 * start buf
     then
       modify (fun b => {| data := Buf.subarray (data b) (start b) (start b + length b);
                           length := length b;
                           start := 0 |})
     else ret tt) ;;
    ret (Some msg).

(** [const buf: DynBuf = { data: Buffer.alloc(0), length: 0, start: 0 }] *)
Definition emptyBuf : DynBuf := {| data := Buf.alloc 0; length := 0; start := 0 |}.

End LineServer.

(** ** [src/httpServer.ts]: the HTTP server *)

Module HttpServer.

(** [type DynBuf = { data, length }] *)
Record DynBuf := { data : Buffer; length : Z }.

(** [type HTTPReq]; its [headers] field is [req_headers] here. *)
Record HTTPReq := {
  method : string;
  uri : Buffer;
  version : string;
  req_headers : list Buffer;
}.

(** [type BodyReader = { length, read }]: [body_length] is its [length]
    ([-1] if unknown); [read] is a closure over mutable variables, kept in
    the world's [closures] at index [read_cell], so that two references to
    one reader share its state. *)
Record BodyReader := { body_length : Z; read_cell : nat }.

(** [type HTTPRes].  [code] is declared a number; it holds whatever the
    expression assigned to it evaluates to. *)
Record HTTPRes := { code : jsval; headers : list Buffer; body : BodyReader }.

(** What the socket still has to deliver, in order. *)
Inductive SockEvent :=
| OnData (d : Buffer)     (* a 'data' event *)
| OnEnd                   (* the 'end' event *)
| OnError (e : exn).      (* an 'error' event *)

(** The [net.Socket]: the events it has yet to emit, the chunks
    [socket.write] has accepted, the error its write callback reports (if
    the transport has failed), and whether [destroy()] was called. *)
Record Socket := {
  incoming : list SockEvent;
  written : list Buffer;
  writeErr : option exn;
  destroyed : bool;
}.

(** [type TCPConn].  Its [reader] field holds the callbacks of the read in
    progress; reads are sequential here, so it is [null] between any two
    steps and is left out. *)
Record TCPConn := { socket : Socket; err : option exn; ended : bool }.

(** The variables a [read] closure captures and mutates: [remain] in
    [readerFromConnLength]; [data] and [done] in [readerFromMemory]. *)
Inductive ReaderClosure :=
| ConnLengthReader (remain : Z)
| MemoryReader (data : Buffer) (done : bool).

(** One connection: the [conn] object, the [buf] of [serveClient] (shared
    with the readers made by [readerFromConnLength]), and the closures. *)
Record World := { conn : TCPConn; buf : DynBuf; closures : list ReaderClosure }.

Definition withConn (f : TCPConn -> TCPConn) (w : World) : World :=
  {| conn := f (conn w); buf := buf w; closures := closures w |}.
Definition withSocket (f : Socket -> Socket) (w : World) : World :=
  withConn (fun c => {| socket := f (socket c); err := err c; ended := ended c |}) w.
Definition setBuf (b : DynBuf) (w : World) : World :=
  {| conn := conn w; buf := b; closures := closures w |}.
Definition setClosures (cs : list ReaderClosure) (w : World) : World :=
  {| conn := conn w; buf := buf w; closures := cs |}.

(** A computation on [buf], run in the world. *)
Definition onBuf {A} (m : M DynBuf A) : M World A := zoom buf setBuf m.

Fixpoint listSet {A} (l : list A) (i : nat) (x : A) : list A :=
  match l, i with
  | [], _ => []
  | _ :: l', O => x :: l'
  | y :: l', S i' => y :: listSet l' i' x
  end.

(** [soInit(socket)] *)
Definition soInit (s : Socket) : TCPConn :=
  {| socket := s; err := None; ended := false |}.

(** [soRead(conn)]: a latched error rejects, a latched end gives the empty
    buffer; otherwise the socket is resumed and its next event settles the
    promise (the handlers installed by [soInit]).  With no event left the
    promise stays pending. *)
Definition soRead : M World Buffer := fun w =>
  match err (conn w) with
  | Some e => Throw e w
  | None =>
      if ended (conn w) then Ret (Buf.empty) w
      else
        match incoming (socket (conn w)) with
        | [] => Pending w
        | ev :: rest =>
            let w' := withSocket (fun s => {| incoming := rest; written := written s;
                                              writeErr := writeErr s;
                                              destroyed := destroyed s |}) w in
            match ev with
            | OnData d => Ret d w'
            | OnEnd =>
                Ret (Buf.empty)
                    (withConn (fun c => {| socket := socket c; err := err c;
                                           ended := true |}) w')
            | OnError e =>
                Throw e (withConn (fun c => {| socket := socket c; err := Some e;
                                               ended := ended c |}) w')
            end
        end
  end.

(** [soWrite(conn, data)] *)
Definition soWrite (d : Buffer) : M World unit := fun w =>
  match writeErr (socket (conn w)) with
  | Some e => Throw e w
  | None =>
      Ret tt (withSocket (fun s => {| incoming := incoming s;
                                      written := written s ++ [d];
                                      writeErr := writeErr s;
                                      destroyed := destroyed s |}) w)
  end.

(** [socket.destroy()] *)
Definition destroy : M World unit :=
  modify (withSocket (fun s => {| incoming := incoming s; written := written s;
                                  writeErr := writeErr s; destroyed := true |})).

(** [bufPush(buf, data)] *)
Definition bufPush (d : Buffer) : M DynBuf unit :=
  buf <- gets id ;;
  let newLen := length buf + Buf.blen d in
  (if length buf <? newLen
   then
     let cap := growCap (Z.to_nat newLen) (Z.max (Buf.blen (data buf)) 32) newLen in
     grown <- copyInto (data buf) (Buf.alloc cap) 0 ;;
     modify (fun b => {| data := grown; length := length b |})
   else ret tt) ;;
  buf <- gets id ;;
  data' <- copyInto d (data buf) (length buf) ;;
  modify (fun _ => {| data := data'; length := newLen |}).

(** [bufPop(buf, len)] *)
Definition bufPop (len : Z) : M DynBuf unit :=
  modify (fun b => {| data := Buf.copyWithin (data b) 0 len (length b);
                      length := length b - len |}).

(** [const buf: DynBuf = { data: Buffer.alloc(0), length: 0 }] *)
Definition emptyBuf : DynBuf := {| data := Buf.alloc 0; length := 0 |}.

(** [const kMaxHeaderLen = 1024 * 8] *)
Definition kMaxHeaderLen : Z := 1024 * 8.

(** [fieldGet(headers, key)] *)
Definition fieldGet (headers : list Buffer) (key : string) : option Buffer :=
  None.

(** [readerFromMemory(data)] *)
Definition readerFromMemory (d : Buffer) : M World BodyReader := fun w =>
  Ret {| body_length := Buf.blen d; read_cell := List.length (closures w) |}
      (setClosures (closures w ++ [MemoryReader d false]) w).

(** [readerFromConnLength(conn, buf, remain)] *)
Definition readerFromConnLength (remain : Z) : M World BodyReader := fun w =>
  Ret {| body_length := remain; read_cell := List.length (closures w) |}
      (setClosures (closures w ++ [ConnLengthReader remain]) w).

Definition setClosure (cell : nat) (c : ReaderClosure) : M World unit :=
  modify (fun w => setClosures (listSet (closures w) cell c) w).

(** The [read] of [readerFromMemory] *)
Definition readMemory (cell : nat) (d : Buffer) (done : bool) : M World Buffer :=
  if done then ret (Buf.empty)
  else setClosure cell (MemoryReader d true) ;; ret d.

(** The [read] of [readerFromConnLength] *)
Definition readConnLength (cell : nat) (remain : Z) : M World Buffer :=
  if remain =? 0 then ret (Buf.empty)
  else
    b <- gets buf ;;
    (if length b =? 0
     then
       d <- soRead ;;
       onBuf (bufPush d) ;;
       if Buf.blen d =? 0 then throw (Error "Unexpected EOF from HTTP body")
       else ret tt
     else ret tt) ;;
    b <- gets buf ;;
    let consume := Z.min (length b) remain in
    setClosure cell (ConnLengthReader (remain - consume)) ;;
    let d := Buf.subarray (data b) 0 consume in
    onBuf (bufPop consume) ;;
    ret d.

(** [r.read()] *)
Definition read (r : BodyReader) : M World Buffer :=
  c <- gets (fun w => nth_error (closures w) (read_cell r)) ;;
  match c with
  | Some (ConnLengthReader remain) => readConnLength (read_cell r) remain
  | Some (MemoryReader d done) => readMemory (read_cell r) d done
  | None => throw (Error "read is not a function")
  end.

(** The functions below call helpers that are not part of the two source
    files: [splitLines], [parseRequestLine], [validateHeader], [parseDec]
    and [encodeHTTPResp].  They are parameters: everything proved holds for
    every implementation of them.  Their results are taken as values, that
    is, as buffers of their own that later writes to [buf.data] do not
    change. *)
Section Server.

(** [splitLines(data)] *)
Variable splitLines : Buffer -> list Buffer.
(** [parseRequestLine(line)], which may throw; its argument is
    [lines[0]], [None] when there is no such element. *)
Variable parseRequestLine : option Buffer -> exn + (string * Buffer * string).
(** [validateHeader(h)] *)
Variable validateHeader : Buffer -> bool.
(** [parseDec(s)]; [None] is [NaN]. *)
Variable parseDec : string -> option Z.
(** [encodeHTTPResp(resp)] *)
Variable encodeHTTPResp : HTTPRes -> Buffer.

(** The loop of [parseHTTPReq] over the header lines. *)
Fixpoint headerFields {S} (lines : list Buffer) : M S (list Buffer) :=
  match lines with
  | [] => ret []
  | h :: lines' =>
      if validateHeader h
      then hs <- headerFields lines' ;; ret (h :: hs)
      else throw (HTTPError 400 "bad field")
  end.

(** [parseHTTPReq(data)]: the loop runs over [lines[1 .. length - 2]]. *)
Definition parseHTTPReq {S} (d : Buffer) : M S HTTPReq :=
  let lines := splitLines d in
  match parseRequestLine (nth_error lines 0) with
  | inl e => throw e
  | inr (method, uri, version) =>
      hs <- headerFields (removelast (tl lines)) ;;
      ret {| method := method; uri := uri; version := version; req_headers := hs |}
  end.

(** ['\r\n\r\n'] *)
Definition CRLFCRLF : Buffer := [x0d; x0a; x0d; x0a].

(** [cutMessage(buf)] *)
Definition cutMessage : M DynBuf (option HTTPReq) :=
  buf <- gets id ;;
  let idx := Buf.indexOf (Buf.subarray (data buf) 0 (length buf)) CRLFCRLF in
  if idx <? 0
  then
    if kMaxHeaderLen <=? length buf
    then throw (HTTPError 413 "header is too large")
    else ret None
  else
    msg <- parseHTTPReq (Buf.subarray (data buf) 0 (idx + 4)) ;;
    bufPop (idx + 4) ;;
    ret (Some msg).

(** [readerFromReq(conn, buf, req)] *)
Definition readerFromReq (req : HTTPReq) : M World BodyReader :=
  bodyLen <- match fieldGet (req_headers req) "Content-Length" with
             | Some contentLen =>
                 match parseDec (Buf.toString contentLen) with
                 | Some n => ret n
                 | None => throw (HTTPError 400 "bad Content-Length")
                 end
             | None => ret (-1)
             end ;;
  let bodyAllowed :=
    negb (String.eqb (method req) "GET" || String.eqb (method req) "HEAD") in
  let chunked :=
    match fieldGet (req_headers req) "Transfer-Encoding" with
    | Some v => Buf.equals v (Buf.from "chunked")
    | None => false
    end in
  if negb bodyAllowed && ((0 <? bodyLen) || chunked)
  then throw (HTTPError 400 "HTTP body not allowed")
  else
    let bodyLen := if negb bodyAllowed then 0 else bodyLen in
    if 0 <=? bodyLen then readerFromConnLength bodyLen
    else if chunked then throw (HTTPError 501 "TODO")
    else throw (HTTPError 501 "TODO").

(** [handleReq(req, body)] *)
Definition handleReq (req : HTTPReq) (body : BodyReader) : M World HTTPRes :=
  resp <- (if String.eqb (Buf.toString (uri req)) "/echo"
           then ret body
           else readerFromMemory (Buf.from ("hello world." ++ LF))) ;;
  ret {| code := JNum 200;
         headers := [Buf.from "Server: my_first_http_server"];
         body := resp |}.

(** The loop of [writeHTTPResp] that writes the body. *)
Fixpoint writeBody (fuel : nat) (b : BodyReader) : M World unit :=
  match fuel with
  | O => fun _ => OutOfFuel
  | S fuel' =>
      d <- read b ;;
      if Buf.blen d =? 0 then ret tt
      else soWrite d ;; writeBody fuel' b
  end.

(** [writeHTTPResp(conn, resp)].  [if (resp.body.length)] tests for a
    length other than 0.  The pushed header is the single-quoted string
    of the source, character for character. *)
Definition writeHTTPResp (fuel : nat) (resp : HTTPRes) : M World unit :=
  if negb (body_length (body resp) =? 0)
  then throw (Error "TODO: chunked encoding")
  else
    let resp' := {| code := code resp;
                    headers := headers resp
                               ++ [Buf.from "Content-Length: ${resp.body.length}"];
                    body := body resp |} in
    soWrite (encodeHTTPResp resp') ;;
    writeBody fuel (body resp).

(** [while ((await reqBody.read()).length > 0) {}] *)
Fixpoint drain (fuel : nat) (b : BodyReader) : M World unit :=
  match fuel with
  | O => fun _ => OutOfFuel
  | S fuel' =>
      d <- read b ;;
      if 0 <? Buf.blen d then drain fuel' b else ret tt
  end.

(** The [while (true)] loop of [serveClient]. *)
Fixpoint serveLoop (fuel : nat) : M World unit :=
  match fuel with
  | O => fun _ => OutOfFuel
  | S fuel' =>
      msg <- onBuf cutMessage ;;
      match msg with
      | None =>
          d <- soRead ;;
          onBuf (bufPush d) ;;
          b <- gets buf ;;
          if (Buf.blen d =? 0) && (length b =? 0) then ret tt
          else if Buf.blen d =? 0 then throw (HTTPError 400 "Unexpected EOF")
          else serveLoop fuel'
      | Some msg =>
          reqBody <- readerFromReq msg ;;
          res <- handleReq msg reqBody ;;
          writeHTTPResp fuel' res ;;
          if String.eqb (version msg) "1.0" then ret tt
          else drain fuel' reqBody ;; serveLoop fuel'
      end
  end.

(** [serveClient(conn)] *)
Definition serveClient (fuel : nat) : M World unit :=
  modify (setBuf emptyBuf) ;;
  serveLoop fuel.

(** The [resp] that the [catch] block of [newConn] builds. *)
Definition errorResp (exc : exn) : M World HTTPRes :=
  let code := getProp exc "code" in
  body <- readerFromMemory (Buf.from (message exc ++ LF)) ;;
  ret {| code := code; headers := []; body := body |}.

(** The [catch (exc)] block of [newConn]. *)
Definition onException (fuel : nat) (exc : exn) : M World unit :=
  if instanceofHTTPError exc
  then
    resp <- errorResp exc ;;
    tryCatch (writeHTTPResp fuel resp) (fun _ => ret tt)
  else ret tt.

(** [newConn(socket)] *)
Definition newConn (fuel : nat) (s : Socket) : outcome World unit :=
  tryFinally (tryCatch (serveClient fuel) (onException fuel)) destroy
             {| conn := soInit s; buf := emptyBuf; closures := [] |}.

End Server.

End HttpServer.

(** ** Notions used to state the properties *)

Module HttpProps.
Import HttpServer.

(** The unread content of the buffer, as the code reads it:
    [buf.data.subarray(0, buf.length)]. *)
Definition view (b : DynBuf) : Buffer := Buf.subarray (data b) 0 (length b).

(** The logical length lies within the backing array. *)
Definition bufOk (b : DynBuf) : Prop := 0 <= length b <= Buf.blen (data b).

(** A sequence of appends and consumes, and what running it does. *)
Inductive BufOp :=
| Push (d : Buffer)
| Pop (n : Z).

Fixpoint runOps (ops : list BufOp) : M DynBuf unit :=
  match ops with
  | [] => ret tt
  | Push d :: ops' => bufPush d ;; runOps ops'
  | Pop n :: ops' => bufPop n ;; runOps ops'
  end.

(** The content a byte queue holds after the same sequence: an append
    adds at the end, consuming [n] drops the first [n] bytes; consuming
    more than the queue holds is not an operation of the queue. *)
Fixpoint contentAfter (ops : list BufOp) (c : Buffer) : option Buffer :=
  match ops with
  | [] => Some c
  | Push d :: ops' => contentAfter ops' (c ++ d)
  | Pop n :: ops' =>
      if (0 <=? n) && (n <=? Buf.blen c)
      then contentAfter ops' (skipn (Z.to_nat n) c)
      else None
  end.

(** [pat] occurs somewhere in [b]. *)
Definition occursIn (pat b : Buffer) : Prop :=
  exists pre post, b = pre ++ pat ++ post.

(** The buffer of a connection after its first chunk [d] was pushed. *)
Definition bufferOf (d : Buffer) : DynBuf :=
  match bufPush d emptyBuf with
  | Ret _ b => b
  | _ => emptyBuf
  end.

(** A fresh socket that will emit [evs], and a world around it. *)
Definition socketWith (evs : list SockEvent) : Socket :=
  {| incoming := evs; written := []; writeErr := None; destroyed := false |}.

Definition worldWith (evs : list SockEvent) (b : DynBuf) : World :=
  {| conn := soInit (socketWith evs); buf := b; closures := [] |}.

(** [k] successive calls of [r.read()], and the chunks they return. *)
Fixpoint pulls (k : nat) (r : BodyReader) : M World (list Buffer) :=
  match k with
  | O => ret []
  | S k' => d <- read r ;; ds <- pulls k' r ;; ret (d :: ds)
  end.

(** The bytes the socket has yet to deliver, and with them the bytes of
    the connection that no reader has returned yet. *)
Fixpoint pendingData (evs : list SockEvent) : Buffer :=
  match evs with
  | [] => []
  | OnData d :: evs' => d ++ pendingData evs'
  | _ :: evs' => pendingData evs'
  end.

Definition unread (w : World) : Buffer :=
  view (buf w) ++ pendingData (incoming (socket (conn w))).

(** The captured variables of the reader [r]. *)
Definition closureOf (r : BodyReader) (w : World) : option ReaderClosure :=
  nth_error (closures w) (read_cell r).

(** The connection is readable and its socket will next deliver the
    chunks [ds]. *)
Definition delivers (w : World) (ds : list Buffer) : Prop :=
  err (conn w) = None /\ ended (conn w) = false
  /\ exists rest, incoming (socket (conn w)) = map OnData ds ++ rest.

(** The field lookup as the specification words it: the first header
    field whose name (the bytes before the first colon) equals the key,
    letter case ignored; none when no field matches. *)
Definition lowerByte (b : byte) : byte :=
  let n := Byte.to_N b in
  if ((65 <=? n) && (n <=? 90))%N
  then match Byte.of_N (n + 32) with Some b' => b' | None => b end
  else b.

Fixpoint fieldName (h : Buffer) : Buffer :=
  match h with
  | [] => []
  | c :: h' => if Byte.eqb c x3a then [] else c :: fieldName h'
  end.

Definition fieldGet_spec (headers : list Buffer) (key : string) : option Buffer :=
  find (fun h => Buf.equals (map lowerByte (fieldName h))
                            (map lowerByte (Buf.from key)))
       headers.

(** Stand-ins for the helpers that are not in the source files, for
    runs in which they are never reached or their result does not matter. *)
Definition noLines : Buffer -> list Buffer := fun _ => [].
Definition rejectLine : option Buffer -> exn + (string * Buffer * string) :=
  fun _ => inl (HTTPError 400 "bad request line").
Definition anyHeader : Buffer -> bool := fun _ => true.
Definition noNumber : string -> option Z := fun _ => None.
Definition headersOnly : HTTPRes -> Buffer :=
  fun resp => List.concat (headers resp).

(** What every world of a connection satisfies: the buffer's length lies
    within its backing array, and no known-length reader has a negative
    count of bytes left. *)
Definition closureOk (c : ReaderClosure) : Prop :=
  match c with
  | ConnLengthReader remain => 0 <= remain
  | MemoryReader _ _ => True
  end.

Definition worldOk (w : World) : Prop :=
  bufOk (buf w) /\ Forall closureOk (closures w).

(** The computation [m] keeps [worldOk], however it ends. *)
Definition keepsOk {A} (m : M World A) : Prop :=
  forall w, worldOk w ->
            match m w with
            | Ret _ w' | Throw _ w' | Pending w' => worldOk w'
            | OutOfFuel => True
            end.

End HttpProps.

(** ** [src/server.ts]: the connection loop of the line protocol *)

Module LineConn.
Import LineServer.

(** One connection of the line server: the [conn] object and the [buf] of
    [serveClient].  [type TCPConn], [soInit] and [soRead] are declared in
    [server.ts] with the text they have in [httpServer.ts]; the types are
    those of [HttpServer]. *)
Record World := { conn : HttpServer.TCPConn; buf : DynBuf }.

Definition withConn (f : HttpServer.TCPConn -> HttpServer.TCPConn) (w : World) : World :=
  {| conn := f (conn w); buf := buf w |}.
Definition setBuf (b : DynBuf) (w : World) : World :=
  {| conn := conn w; buf := b |}.
Definition onBuf {A} (m : M DynBuf A) : M World A := zoom buf setBuf m.

(** [soRead(conn)], on the connection object alone. *)
Definition soRead : M HttpServer.TCPConn Buffer := fun c =>
  match HttpServer.err c with
  | Some e => Throw e c
  | None =>
      if HttpServer.ended c then Ret Buf.empty c
      else
        match HttpServer.incoming (HttpServer.socket c) with
        | [] => Pending c
        | ev :: rest =>
            let s := HttpServer.socket c in
            let s' := {| HttpServer.incoming := rest;
                         HttpServer.written := HttpServer.written s;
                         HttpServer.writeErr := HttpServer.writeErr s;
                         HttpServer.destroyed := HttpServer.destroyed s |} in
            match ev with
            | HttpServer.OnData d =>
                Ret d {| HttpServer.socket := s'; HttpServer.err := HttpServer.err c;
                         HttpServer.ended := HttpServer.ended c |}
            | HttpServer.OnEnd =>
                Ret Buf.empty
                    {| HttpServer.socket := s'; HttpServer.err := HttpServer.err c;
                       HttpServer.ended := true |}
            | HttpServer.OnError e =>
                Throw e {| HttpServer.socket := s'; HttpServer.err := Some e;
                           HttpServer.ended := HttpServer.ended c |}
            end
        end
  end.

(** [soWrite(conn, data)]: in [server.ts] the function has an empty body;
    the call evaluates to [undefined] and awaiting it continues at once. *)
Definition soWrite (d : Buffer) : M World unit := ret tt.

(** [socket.destroy()] *)
Definition destroy : M World unit :=
  modify (withConn (fun c =>
    let s := HttpServer.socket c in
    {| HttpServer.socket := {| HttpServer.incoming := HttpServer.incoming s;
                               HttpServer.written := HttpServer.written s;
                               HttpServer.writeErr := HttpServer.writeErr s;
                               HttpServer.destroyed := true |};
       HttpServer.err := HttpServer.err c;
       HttpServer.ended := HttpServer.ended c |})).

(** The [while (true)] loop of [serveClient]. *)
Fixpoint serveLoop (fuel : nat) : M World unit :=
  match fuel with
  | O => fun _ => OutOfFuel
  | S fuel' =>
      msg <- onBuf cutMessage ;;
      match msg with
      | None =>
          d <- zoom conn (fun c w => {| conn := c; buf := buf w |}) soRead ;;
          onBuf (bufPush d) ;;
          if Buf.blen d =? 0 then ret tt
          else serveLoop fuel'
      | Some msg =>
          if Buf.equals msg (Buf.from ("quit" ++ LF))
          then soWrite (Buf.from ("Bye" ++ LF)) ;; destroy ;; ret tt
          else
            let reply := Buf.from "Echo: " ++ msg in
            soWrite reply ;; serveLoop fuel'
      end
  end.

(** [serveClient(socket)] *)
Definition serveClient (fuel : nat) (s : HttpServer.Socket) : outcome World unit :=
  serveLoop fuel {| conn := HttpServer.soInit s; buf := emptyBuf |}.

(** [newConn(socket)]: the [catch] block only logs. *)
Definition newConn (fuel : nat) (s : HttpServer.Socket) : outcome World unit :=
  tryFinally (tryCatch (fun _ => serveClient fuel s) (fun _ => ret tt)) destroy
             {| conn := HttpServer.soInit s; buf := emptyBuf |}.

End LineConn.

(** ** Further notions used to state properties *)

Module MoreProps.
Import HttpServer HttpProps.

(** The [data] and [length] of a line-server buffer, as a buffer of the
    HTTP server. *)
Definition forget (b : LineServer.DynBuf) : DynBuf :=
  {| data := LineServer.data b; length := LineServer.length b |}.

(** The unread content of a line-server buffer, as its [cutMessage] reads
    it: [buf.data.subarray(0, buf.length)]. *)
Definition lineView (b : LineServer.DynBuf) : Buffer :=
  Buf.subarray (LineServer.data b) 0 (LineServer.length b).

(** The world after [socket.write] accepted the chunk [d]. *)
Definition afterWrite (d : Buffer) (w : World) : World :=
  withSocket (fun s => {| incoming := incoming s; written := written s ++ [d];
                          writeErr := writeErr s; destroyed := destroyed s |}) w.

(** The response that [writeHTTPResp] hands to the encoder. *)
Definition withLengthHeader (resp : HTTPRes) : HTTPRes :=
  {| code := code resp;
     headers := headers resp ++ [Buf.from "Content-Length: ${resp.body.length}"];
     body := body resp |}.

(** More stand-ins for the helpers that are not in the source files. *)
Definition echoLine : option Buffer -> exn + (string * Buffer * string) :=
  fun _ => inr ("GET"%string, Buf.from "/echo", "1.1"%string).
Definition rootLine : option Buffer -> exn + (string * Buffer * string) :=
  fun _ => inr ("GET"%string, Buf.from "/", "1.1"%string).
Definition postLine : option Buffer -> exn + (string * Buffer * string) :=
  fun _ => inr ("POST"%string, Buf.from "/echo", "1.1"%string).
Definition threeLines : Buffer -> list Buffer :=
  fun _ => [Buf.from "GET /echo HTTP/1.1"; Buf.from "Host: x"; Buf.empty].

(** The buffer a computation on the buffer ends with. *)
Definition bufAfter {A} (o : outcome DynBuf A) : DynBuf :=
  match o with
  | Ret _ b | Throw _ b | Pending b => b
  | OutOfFuel => emptyBuf
  end.

(** [w'] differs from [w] at most in the buffer, in what the socket has yet
    to deliver with the connection's flags, and in the closure at [cell]:
    the other closures and what was written are the same. *)
Definition touchesOnly (cell : nat) (w w' : World) : Prop :=
  List.length (closures w') = List.length (closures w)
  /\ (forall i, i <> cell -> nth_error (closures w') i = nth_error (closures w) i)
  /\ written (socket (conn w')) = written (socket (conn w))
  /\ destroyed (socket (conn w')) = destroyed (socket (conn w)).

(** The computation [m] ends, suspends or throws, within [touchesOnly]. *)
Definition framed {A} (cell : nat) (m : M World A) : Prop :=
  forall w, match m w with
            | Ret _ w' | Throw _ w' | Pending w' => touchesOnly cell w w'
            | OutOfFuel => False
            end.

(** A result on an HTTP-server buffer, as a result on a line-server buffer
    with read offset [st]. *)
Definition withStart {A} (st : Z) (o : outcome HttpServer.DynBuf A)
  : outcome LineServer.DynBuf A :=
  let back hb := {| LineServer.data := HttpServer.data hb;
                    LineServer.length := HttpServer.length hb;
                    LineServer.start := st |} in
  match o with
  | Ret a hb => Ret a (back hb)
  | Throw e hb => Throw e (back hb)
  | Pending hb => Pending (back hb)
  | OutOfFuel => OutOfFuel
  end.

(** A fresh world of the line server around a socket that will emit [evs]. *)
Definition lineWorld (evs : list HttpServer.SockEvent) (b : LineServer.DynBuf)
  : LineConn.World :=
  {| LineConn.conn := HttpServer.soInit (socketWith evs); LineConn.buf := b |}.

(** The line-server buffer after its first chunk [d] was pushed. *)
Definition lineBufferOf (d : Buffer) : LineServer.DynBuf :=
  match LineServer.bufPush d LineServer.emptyBuf with
  | Ret _ b => b
  | _ => LineServer.emptyBuf
  end.

End MoreProps.

(** * Facts about the buffer primitives *)

Module BufFacts.

Lemma blen_nonneg (b : Buffer) : 0 <= Buf.blen b.
Proof. unfold Buf.blen. lia. Qed.

Lemma blen_app (a b : Buffer) : Buf.blen (a ++ b) = Buf.blen a + Buf.blen b.
Proof. unfold Buf.blen. rewrite length_app. lia. Qed.

Lemma blen_alloc (n : Z) : Buf.blen (Buf.alloc n) = Z.max 0 n.
Proof. unfold Buf.blen, Buf.alloc. rewrite repeat_length. lia. Qed.

Lemma blen_zero (b : Buffer) : Buf.blen b = 0 -> b = [].
Proof. destruct b; [reflexivity | unfold Buf.blen; simpl; lia]. Qed.

(** [b.subarray(0, n)] is the first [n] bytes. *)
Lemma subarray_front (b : Buffer) (n : Z) :
  0 <= n -> Buf.subarray b 0 n = firstn (Z.to_nat n) b.
Proof.
  intros Hn. pose proof (blen_nonneg b) as Hb.
  unfold Buf.subarray, Buf.relIndex.
  replace (0 <? 0) with false by reflexivity.
  destruct (n <? 0) eqn:E; [apply Z.ltb_lt in E; lia |].
  rewrite (Z.min_l 0) by assumption. simpl skipn. rewrite Z.sub_0_r.
  destruct (Z.le_ge_cases n (Buf.blen b)) as [H | H].
  - rewrite Z.min_l by assumption. reflexivity.
  - rewrite Z.min_r by assumption.
    unfold Buf.blen in *. rewrite Nat2Z.id.
    rewrite firstn_all. symmetry. apply firstn_all2. lia.
Qed.

Lemma blen_firstn (b : Buffer) (n : Z) :
  0 <= n <= Buf.blen b -> Buf.blen (firstn (Z.to_nat n) b) = n.
Proof.
  intros H. unfold Buf.blen in *. rewrite length_firstn. lia.
Qed.

(** Copying at a valid offset that leaves room for the whole source. *)
Lemma copy_fits (source target : Buffer) (t : Z) :
  0 <= t -> t + Buf.blen source <= Buf.blen target ->
  Buf.copy source target t
  = Some (firstn (Z.to_nat t) target ++ source
          ++ skipn (Z.to_nat t + List.length source) target).
Proof.
  intros Ht Hfit. unfold Buf.copy.
  destruct (t <? 0) eqn:E; [apply Z.ltb_lt in E; lia |].
  f_equal. f_equal. f_equal.
  apply firstn_all2. unfold Buf.blen in *. lia.
Qed.

(** [b.copyWithin(0, n, len)] moves [b[n .. len)] to the front. *)
Lemma copyWithin_front (b : Buffer) (n len : Z) :
  0 <= n <= len -> len <= Buf.blen b ->
  firstn (Z.to_nat (len - n)) (Buf.copyWithin b 0 n len)
  = skipn (Z.to_nat n) (firstn (Z.to_nat len) b)
  /\ Buf.blen (Buf.copyWithin b 0 n len) = Buf.blen b.
Proof.
  intros Hn Hlen. unfold Buf.copyWithin, Buf.relIndex.
  replace (0 <? 0) with false by reflexivity.
  destruct (n <? 0) eqn:E1; [apply Z.ltb_lt in E1; lia |].
  destruct (len <? 0) eqn:E2; [apply Z.ltb_lt in E2; lia |].
  rewrite (Z.min_l 0) by lia. rewrite (Z.min_l n) by lia.
  rewrite (Z.min_l len) by lia. rewrite Z.sub_0_r, Z.add_0_l.
  rewrite (Z.min_l (len - n)) by lia.
  assert (Hsk : skipn (Z.to_nat n) (firstn (Z.to_nat len) b)
                = firstn (Z.to_nat (len - n)) (skipn (Z.to_nat n) b)).
  { rewrite skipn_firstn_comm. f_equal. lia. }
  destruct (0 <? len - n) eqn:E3.
  - simpl firstn at 1. simpl app. split.
    + rewrite firstn_app.
      rewrite length_firstn, length_skipn.
      replace (Z.to_nat (len - n) - _)%nat with 0%nat
        by (unfold Buf.blen in *; lia).
      simpl firstn at 2. rewrite app_nil_r.
      rewrite firstn_firstn, Nat.min_id. symmetry. exact Hsk.
    + rewrite blen_app. unfold Buf.blen in *.
      rewrite length_firstn, !length_skipn. lia.
  - apply Z.ltb_ge in E3. assert (len = n) by lia. subst len.
    rewrite Z.sub_diag in *. simpl. split; [| reflexivity].
    rewrite Hsk. reflexivity.
Qed.

(** The capacity loop ends at or above the requested length whenever the
    fuel covers the doublings needed. *)
Lemma growCap_reaches (fuel : nat) :
  forall cap newLen,
    0 < cap -> newLen <= cap * 2 ^ Z.of_nat fuel ->
    newLen <= growCap fuel cap newLen /\ cap <= growCap fuel cap newLen.
Proof.
  induction fuel as [| fuel IH]; intros cap newLen Hc Hn; simpl growCap.
  - destruct (cap <? newLen) eqn:E.
    + apply Z.ltb_lt in E. simpl in Hn. lia.
    + apply Z.ltb_ge in E. lia.
  - destruct (cap <? newLen) eqn:E.
    + destruct (IH (cap * 2) newLen) as [H1 H2]; [lia | | lia].
      rewrite Nat2Z.inj_succ, Z.pow_succ_r in Hn by lia. lia.
    + apply Z.ltb_ge in E. lia.
Qed.

(** [Z.to_nat newLen] doublings are enough from a positive capacity. *)
Lemma growCap_enough (cap newLen : Z) :
  0 < cap ->
  newLen <= growCap (Z.to_nat newLen) cap newLen
  /\ cap <= growCap (Z.to_nat newLen) cap newLen.
Proof.
  intros Hc. apply growCap_reaches; [assumption |].
  destruct (Z.le_gt_cases newLen 0) as [H | H].
  - replace (Z.to_nat newLen) with 0%nat by lia. simpl. lia.
  - rewrite Z2Nat.id by lia.
    pose proof (Z.pow_gt_lin_r 2 newLen ltac:(lia) ltac:(lia)). nia.
Qed.

End BufFacts.

(** * Facts about [src/httpServer.ts] *)

Module HttpServerFacts.
Import HttpServer HttpProps BufFacts.
#[local] Open Scope js_scope.

(** ** The dynamic buffer: [bufPush] and [bufPop] *)

Lemma view_ok (b : DynBuf) :
  bufOk b -> view b = firstn (Z.to_nat (length b)) (data b) /\ Buf.blen (view b) = length b.
Proof.
  intros [H0 H1]. unfold view. rewrite subarray_front by assumption.
  split; [reflexivity | apply blen_firstn; lia].
Qed.

Lemma bufPush_ok (d : Buffer) (b : DynBuf) :
    bufOk b ->
    exists b', bufPush d b = Ret tt b'
               /\ view b' = view b ++ d
               /\ length b' = length b + Buf.blen d
               /\ bufOk b'.
Proof.
  intros Hok. destruct (view_ok b Hok) as [Hv _]. rewrite Hv. clear Hv.
  destruct Hok as [H0 H1]. destruct b as [dat len]. simpl in *.
  pose proof (blen_nonneg d) as Hd.
  cbv [bufPush bind gets id]. cbv beta iota. cbn [data length].
  destruct (len <? len + Buf.blen d) eqn:E.
  - apply Z.ltb_lt in E.
    destruct (growCap_enough (Z.max (Buf.blen dat) 32) (len + Buf.blen d))
      as [G1 G2]; [lia |].
    set (cap := growCap _ _ _) in *.
    unfold copyInto at 1.
    rewrite copy_fits by (rewrite ?blen_alloc; lia).
    cbv [ret modify]. cbn [data length].
    simpl firstn. rewrite app_nil_l. simpl Nat.add.
    set (grown := dat ++ skipn (List.length dat) (Buf.alloc cap)).
    assert (Hg : Buf.blen grown = cap).
    { unfold grown. rewrite blen_app. unfold Buf.blen.
      rewrite length_skipn. unfold Buf.alloc. rewrite repeat_length.
      unfold Buf.blen in *. lia. }
    unfold copyInto. rewrite copy_fits by lia.
    eexists. split; [reflexivity |]. cbn [data length].
    assert (Hf : firstn (Z.to_nat len) grown = firstn (Z.to_nat len) dat).
    { unfold grown. rewrite firstn_app.
      replace (Z.to_nat len - List.length dat)%nat with 0%nat
        by (unfold Buf.blen in *; lia).
      simpl. apply app_nil_r. }
    rewrite Hf.
    assert (Hl : List.length (firstn (Z.to_nat len) dat) = Z.to_nat len).
    { rewrite length_firstn. unfold Buf.blen in *. lia. }
    split; [| split; [reflexivity |]].
    + unfold view. simpl. rewrite subarray_front by lia.
      rewrite app_assoc. rewrite firstn_app.
      rewrite length_app, Hl.
      replace (Z.to_nat (len + Buf.blen d) - _)%nat with 0%nat
        by (unfold Buf.blen; lia).
      simpl firstn at 2. rewrite app_nil_r.
      apply firstn_all2. rewrite length_app, Hl. unfold Buf.blen. lia.
    + unfold bufOk. simpl. split; [lia |].
      rewrite !blen_app. rewrite blen_firstn by lia.
      pose proof (blen_nonneg (skipn (Z.to_nat len + List.length d) grown)). lia.
  - apply Z.ltb_ge in E. assert (Hz : Buf.blen d = 0) by lia.
    apply blen_zero in Hz. subst d.
    cbv [ret]. unfold copyInto. rewrite copy_fits by (simpl; unfold Buf.blen in *; simpl; lia).
    cbv [ret modify]. cbn [data length].
    eexists. split; [reflexivity |]. simpl app. rewrite Nat.add_0_r.
    rewrite firstn_skipn. rewrite app_nil_r.
    split; [| split; [reflexivity |]].
    + unfold view. simpl. replace (len + Buf.blen []) with len by (unfold Buf.blen; simpl; lia).
      apply subarray_front. lia.
    + unfold bufOk. simpl. unfold Buf.blen in *. simpl. lia.
Qed.

Lemma bufPop_ok (n : Z) (b : DynBuf) :
    bufOk b -> 0 <= n <= length b ->
    exists b', bufPop n b = Ret tt b'
               /\ view b' = skipn (Z.to_nat n) (view b)
               /\ length b' = length b - n
               /\ bufOk b'.
Proof.
  intros Hok Hn. destruct (view_ok b Hok) as [Hv _]. rewrite Hv. clear Hv.
  destruct Hok as [H0 H1]. destruct b as [dat len]. simpl in *.
  destruct (copyWithin_front dat n len) as [C1 C2]; [lia | lia |].
  unfold bufPop, modify. simpl. eexists. split; [reflexivity |].
  simpl. split; [| split; [reflexivity |]].
  - unfold view. simpl. rewrite subarray_front by lia. exact C1.
  - unfold bufOk. simpl. lia.
Qed.

(** C8.  Starting from any buffer whose length lies within its backing
    array (the empty buffer of [serveClient] is one), every sequence of
    [bufPush] and [bufPop] in which each consume asks for at most the bytes
    then unread runs without error and leaves exactly the content a byte
    queue would hold: appends add at the end, consumes remove from the
    front, nothing is reordered or lost; and the backing array is at least
    as long as the logical length.  As the statement holds for every
    sequence, it holds after each operation of a sequence. *)
Theorem buffer_preserves_content (ops : list BufOp) :
  forall (b : DynBuf) (c : Buffer),
    bufOk b ->
    contentAfter ops (view b) = Some c ->
    exists b', runOps ops b = Ret tt b'
               /\ view b' = c
               /\ length b' = Buf.blen c
               /\ length b' <= Buf.blen (data b').
Proof.
  induction ops as [| [d | n] ops IH]; intros b c Hok Hc; simpl in Hc.
  - injection Hc as <-. exists b. destruct (view_ok b Hok) as [_ Hl].
    repeat split; [symmetry; exact Hl | apply Hok].
  - destruct (bufPush_ok d b Hok) as (b1 & Hrun & Hv & _ & Hok1).
    rewrite <- Hv in Hc. destruct (IH b1 c Hok1 Hc) as (b' & Hr & Hrest).
    exists b'. split; [| exact Hrest].
    simpl. unfold bind. rewrite Hrun. exact Hr.
  - destruct ((0 <=? n) && (n <=? Buf.blen (view b))) eqn:E; [| discriminate].
    apply andb_true_iff in E. destruct E as [E1 E2].
    apply Z.leb_le in E1, E2. destruct (view_ok b Hok) as [_ Hl]. rewrite Hl in E2.
    destruct (bufPop_ok n b Hok (conj E1 E2)) as (b1 & Hrun & Hv & _ & Hok1).
    rewrite <- Hv in Hc. destruct (IH b1 c Hok1 Hc) as (b' & Hr & Hrest).
    exists b'. split; [| exact Hrest].
    simpl. unfold bind. rewrite Hrun. exact Hr.
Qed.

Lemma buffer_preserves_content_witness :
  let ops := [Push (Buf.from "GET /"); Pop 4; Push (Buf.from "echo"); Pop 0] in
  (bufOk emptyBuf
   /\ contentAfter ops (view emptyBuf) = Some (Buf.from "/echo"))
  /\ exists b', runOps ops emptyBuf = Ret tt b'
                /\ view b' = Buf.from "/echo"
                /\ length b' = Buf.blen (Buf.from "/echo")
                /\ length b' <= Buf.blen (data b').
Proof.
  intros ops.
  assert (H1 : bufOk emptyBuf) by (unfold bufOk; vm_compute; split; discriminate).
  assert (H2 : contentAfter ops (view emptyBuf) = Some (Buf.from "/echo"))
    by reflexivity.
  split; [split; assumption |].
  exact (buffer_preserves_content ops emptyBuf (Buf.from "/echo") H1 H2).
Defined.

(** ** The framer: [cutMessage] and the header limit *)

Lemma isPrefix_iff (p b : Buffer) :
  Buf.isPrefix p b = true <-> exists post, b = p ++ post.
Proof.
  revert b. induction p as [| x p IH]; intros b; simpl.
  - split; [intros _; exists b; reflexivity | reflexivity].
  - destruct b as [| y b].
    + split; [discriminate | intros [post H]; discriminate].
    + rewrite andb_true_iff, IH. split.
      * intros [Hxy [post ->]]. apply Byte.byte_dec_bl in Hxy. subst y.
        exists post. reflexivity.
      * intros [post H]. injection H as -> ->. split.
        -- apply Byte.byte_dec_lb. reflexivity.
        -- exists post. reflexivity.
Qed.

Lemma indexOfFrom_absent (pat b : Buffer) :
  forall i, ~ occursIn pat b -> Buf.indexOfFrom b pat i = -1.
Proof.
  induction b as [| x b IH]; intros i Hno; simpl.
  - destruct (Buf.isPrefix pat []) eqn:E; [| reflexivity].
    exfalso. apply Hno. apply isPrefix_iff in E. destruct E as [post E].
    exists [], post. exact E.
  - destruct (Buf.isPrefix pat (x :: b)) eqn:E.
    + exfalso. apply Hno. apply isPrefix_iff in E. destruct E as [post E].
      exists [], post. exact E.
    + apply IH. intros (pre & post & ->). apply Hno.
      exists (x :: pre), post. reflexivity.
Qed.

Lemma indexOfFrom_present (pat : Buffer) (pre : Buffer) :
  forall post i, 0 <= i -> 0 <= Buf.indexOfFrom (pre ++ pat ++ post) pat i.
Proof.
  induction pre as [| x pre IH]; intros post i Hi.
  - simpl app.
    assert (E : Buf.isPrefix pat (pat ++ post) = true)
      by (apply isPrefix_iff; exists post; reflexivity).
    destruct (pat ++ post); simpl; simpl in E; rewrite E; exact Hi.
  - simpl. destruct (Buf.isPrefix pat (x :: pre ++ pat ++ post)); [exact Hi |].
    apply IH. lia.
Qed.

Lemma indexOf_absent_iff (pat b : Buffer) :
  Buf.indexOf b pat = -1 <-> ~ occursIn pat b.
Proof.
  split.
  - intros H (pre & post & ->).
    pose proof (indexOfFrom_present pat pre post 0 ltac:(lia)) as Hp.
    unfold Buf.indexOf in H. lia.
  - apply indexOfFrom_absent.
Qed.

(** C5.  When the unread content of the buffer holds no ["\r\n\r\n"],
    [cutMessage] throws the [HTTPError] with status 413, "header is too
    large", if [buf.length] is 8192 or more, and returns [null] (need more
    data) if it is less; the buffer is left as it was in both cases. *)
Theorem cutMessage_header_limit
    (splitLines : Buffer -> list Buffer)
    (parseRequestLine : option Buffer -> exn + (string * Buffer * string))
    (validateHeader : Buffer -> bool)
    (b : DynBuf) :
    ~ occursIn CRLFCRLF (view b) ->
    (8192 <= length b ->
     cutMessage splitLines parseRequestLine validateHeader b
     = Throw (HTTPError 413 "header is too large") b)
    /\ (length b < 8192 ->
        cutMessage splitLines parseRequestLine validateHeader b = Ret None b).
Proof.
  intros Hno. apply indexOf_absent_iff in Hno. unfold view in Hno.
  unfold cutMessage, bind, gets, id. cbv beta iota. rewrite Hno.
  replace (-1 <? 0) with true by reflexivity. unfold kMaxHeaderLen.
  replace (1024 * 8) with 8192 by reflexivity.
  split; intros H.
  - destruct (8192 <=? length b) eqn:E; [reflexivity | apply Z.leb_gt in E; lia].
  - destruct (8192 <=? length b) eqn:E; [apply Z.leb_le in E; lia | reflexivity].
Qed.


(** ** The driver at end of stream *)

Lemma bufPush_nil (b : DynBuf) : bufOk b -> bufPush [] b = Ret tt b.
Proof.
  intros [H0 H1]. destruct b as [dat len]. cbn [data length] in *.
  cbv [bufPush bind gets id]. cbv beta iota. cbn [data length].
  replace (len + Buf.blen []) with len by (unfold Buf.blen; simpl; lia).
  rewrite Z.ltb_irrefl. cbv [ret]. unfold copyInto.
  rewrite copy_fits by (unfold Buf.blen in *; simpl; lia).
  cbv [ret modify]. simpl app. rewrite Nat.add_0_r, firstn_skipn. reflexivity.
Qed.

Lemma setBuf_same (w : World) : setBuf (buf w) w = w.
Proof. destruct w. reflexivity. Qed.

Lemma soRead_keeps_buf (w w' : World) (d : Buffer) :
  soRead w = Ret d w' -> buf w' = buf w /\ closures w' = closures w.
Proof.
  unfold soRead. destruct (err (conn w)); [discriminate |].
  destruct (ended (conn w)).
  - intros H. injection H as _ <-. split; reflexivity.
  - destruct (incoming (socket (conn w))) as [| [d' | | e] rest]; try discriminate.
    + intros H. injection H as _ <-. split; reflexivity.
    + intros H. injection H as _ <-. split; reflexivity.
Qed.

Section Awaiting.
Variable splitLines : Buffer -> list Buffer.
Variable parseRequestLine : option Buffer -> exn + (string * Buffer * string).
Variable validateHeader : Buffer -> bool.
Variable parseDec : string -> option Z.
Variable encodeHTTPResp : HTTPRes -> Buffer.

Lemma cutMessage_none_unchanged (b b1 : DynBuf) :
  cutMessage splitLines parseRequestLine validateHeader b = Ret None b1 -> b1 = b.
Proof.
  unfold cutMessage, bind, gets, id. cbv beta iota.
  destruct (_ <? 0).
  - destruct (kMaxHeaderLen <=? length b); [discriminate |].
    unfold ret. intros H. injection H as <-. reflexivity.
  - destruct (parseHTTPReq _ _ _ _ b); try discriminate.
Qed.

(** C6.  In an iteration of the loop of [serveClient] in which
    [cutMessage] found no complete header and [soRead] then returned a
    zero-length chunk: with an empty buffer the driver returns normally,
    with a non-empty buffer it throws the [HTTPError] with status 400,
    "Unexpected EOF".  In both cases the world it ends in is the one the
    end-of-stream read left: no further read is made. *)
Theorem serveLoop_end_of_stream (fuel : nat) (w w' : World) (b1 : DynBuf) (d : Buffer) :
  bufOk (buf w) ->
  cutMessage splitLines parseRequestLine validateHeader (buf w) = Ret None b1 ->
  soRead w = Ret d w' ->
  Buf.blen d = 0 ->
  (length (buf w) = 0 ->
   serveLoop splitLines parseRequestLine validateHeader parseDec encodeHTTPResp
             (S fuel) w = Ret tt w')
  /\ (length (buf w) <> 0 ->
      serveLoop splitLines parseRequestLine validateHeader parseDec encodeHTTPResp
                (S fuel) w = Throw (HTTPError 400 "Unexpected EOF") w').
Proof.
  intros Hok Hcut Hread Hd.
  pose proof (cutMessage_none_unchanged _ _ Hcut) as ->.
  destruct (soRead_keeps_buf _ _ _ Hread) as [Hb _].
  apply blen_zero in Hd. subst d.
  assert (Hstep : forall r,
    r = (if (Buf.blen [] =? 0) && (length (buf w) =? 0)
         then Ret tt w'
         else if Buf.blen [] =? 0
              then Throw (HTTPError 400 "Unexpected EOF") w'
              else serveLoop splitLines parseRequestLine validateHeader parseDec
                             encodeHTTPResp fuel w') ->
    serveLoop splitLines parseRequestLine validateHeader parseDec encodeHTTPResp
              (S fuel) w = r).
  { intros r ->. simpl serveLoop. unfold bind at 1. unfold onBuf at 1, zoom.
    rewrite Hcut, setBuf_same. unfold bind at 1. rewrite Hread.
    unfold bind at 1. unfold onBuf, zoom. rewrite Hb.
    rewrite (bufPush_nil _ Hok). rewrite <- Hb, setBuf_same.
    unfold bind, gets. rewrite Hb.
    destruct ((Buf.blen [] =? 0) && (length (buf w) =? 0)); [reflexivity |].
    destruct (Buf.blen [] =? 0); reflexivity. }
  split; intros Hlen; apply Hstep.
  - rewrite Hlen. reflexivity.
  - apply Z.eqb_neq in Hlen. rewrite Hlen. reflexivity.
Qed.
End Awaiting.

(** ** The known-length reader *)

Lemma soRead_pending (w w' : World) (d : Buffer) :
  soRead w = Ret d w' ->
  d ++ pendingData (incoming (socket (conn w')))
  = pendingData (incoming (socket (conn w))).
Proof.
  unfold soRead. destruct (err (conn w)); [discriminate |].
  destruct (ended (conn w)).
  - intros H. injection H as <- <-. reflexivity.
  - destruct (incoming (socket (conn w))) as [| [d' | | e] rest] eqn:E; try discriminate.
    + intros H. injection H as <- <-. reflexivity.
    + intros H. injection H as <- <-. reflexivity.
Qed.

Lemma nth_error_listSet {A} (l : list A) (i : nat) (x y : A) :
  nth_error l i = Some y -> nth_error (listSet l i x) i = Some x.
Proof.
  revert i. induction l as [| z l IH]; intros [| i] H; simpl in *;
    try discriminate; [reflexivity | apply IH; exact H].
Qed.

Lemma readConnLength_exhausted (cell : nat) (w : World) :
  readConnLength cell 0 w = Ret [] w.
Proof. reflexivity. Qed.

Lemma readConnLength_step (cell : nat) (rem : Z) (w w' : World) (d : Buffer) :
  bufOk (buf w) -> 0 < rem ->
  nth_error (closures w) cell = Some (ConnLengthReader rem) ->
  readConnLength cell rem w = Ret d w' ->
  0 < Buf.blen d <= rem
  /\ nth_error (closures w') cell = Some (ConnLengthReader (rem - Buf.blen d))
  /\ bufOk (buf w')
  /\ d ++ unread w' = unread w.
Proof.
  intros Hok Hrem Hcell. unfold readConnLength.
  destruct (rem =? 0) eqn:E0; [apply Z.eqb_eq in E0; lia | clear E0].
  unfold bind at 1. unfold gets at 1. unfold bind at 1.
  (* the optional refill *)
  assert (Hfill : forall o,
    o = (if length (buf w) =? 0
         then d0 <- soRead ;; onBuf (bufPush d0) ;;
              (if Buf.blen d0 =? 0
               then throw (Error "Unexpected EOF from HTTP body")
               else ret tt)
         else ret tt) w ->
    forall (u : unit) (w1 : World), o = Ret u w1 ->
      bufOk (buf w1) /\ 0 < length (buf w1)
      /\ closures w1 = closures w /\ unread w1 = unread w).
  { intros o -> u w1. destruct (length (buf w) =? 0) eqn:E.
    - apply Z.eqb_eq in E. unfold bind at 1.
      destruct (soRead w) as [d0 w0 | | |] eqn:Hread; try discriminate.
      destruct (soRead_keeps_buf _ _ _ Hread) as [Hb Hc].
      pose proof (soRead_pending _ _ _ Hread) as Hp.
      unfold bind at 1. unfold onBuf, zoom.
      assert (Hok0 : bufOk (buf w0)) by (rewrite Hb; exact Hok).
      destruct (bufPush_ok d0 (buf w0) Hok0) as (b2 & Hpush & Hv & Hl & Hok2).
      rewrite Hpush. destruct (Buf.blen d0 =? 0) eqn:Ed; [discriminate |].
      apply Z.eqb_neq in Ed. unfold ret. intros H. inversion H; subst w1; clear H.
      simpl. pose proof (blen_nonneg d0). rewrite Hb in Hl.
      repeat split; try apply Hok2; try lia; try exact Hc.
      unfold unread. simpl. rewrite Hv, Hb.
      destruct (view_ok _ Hok) as [_ Hvl]. rewrite E in Hvl.
      apply blen_zero in Hvl. rewrite Hvl. simpl.
      exact Hp.
    - apply Z.eqb_neq in E. unfold ret. intros H. inversion H; subst w1; clear H.
      destruct Hok as [Hlo Hhi]. repeat split; try assumption; lia. }
  specialize (Hfill _ eq_refl).
  match goal with
  | |- match ?m with _ => _ end = _ -> _ =>
      destruct m as [u w1 | | |]; try discriminate
  end.
  destruct (Hfill u w1 eq_refl) as (Hok1 & Hpos & Hc1 & Hu1). clear Hfill.
  unfold bind at 1. unfold gets at 1. unfold bind at 1.
  unfold setClosure at 1, modify at 1. unfold bind at 1.
  unfold onBuf, zoom. cbn [buf setClosures].
  set (consume := Z.min (length (buf w1)) rem).
  assert (Hcons : 0 < consume <= length (buf w1)) by (unfold consume; lia).
  destruct (bufPop_ok consume (buf w1) Hok1 ltac:(lia)) as (b3 & Hpop & Hv3 & Hl3 & Hok3).
  rewrite Hpop. unfold ret. intros H. injection H as <- <-.
  destruct (view_ok _ Hok1) as [Hv1 Hvl1].
  assert (Hd : Buf.subarray (data (buf w1)) 0 consume
               = firstn (Z.to_nat consume) (view (buf w1))).
  { rewrite subarray_front by lia. rewrite Hv1, firstn_firstn. f_equal. lia. }
  assert (Hdl : Buf.blen (Buf.subarray (data (buf w1)) 0 consume) = consume).
  { rewrite Hd. apply blen_firstn. lia. }
  rewrite Hdl. cbn [buf closures setBuf setClosures].
  repeat split; try lia; try apply Hok3.
  - rewrite Hc1. eapply nth_error_listSet. exact Hcell.
  - rewrite <- Hu1. unfold unread. cbn [buf conn setBuf setClosures].
    rewrite Hv3, Hd, app_assoc, firstn_skipn. reflexivity.
Qed.

Lemma read_connLength (r : BodyReader) (rem : Z) (w : World) :
  closureOf r w = Some (ConnLengthReader rem) ->
  read r w = readConnLength (read_cell r) rem w.
Proof.
  unfold closureOf. intros H. unfold read, bind, gets. rewrite H. reflexivity.
Qed.

Lemma pulls_connLength (r : BodyReader) (k : nat) :
  forall (rem : Z) (w w' : World) (chunks : list Buffer),
    bufOk (buf w) -> 0 <= rem ->
    closureOf r w = Some (ConnLengthReader rem) ->
    pulls k r w = Ret chunks w' ->
    Buf.blen (List.concat chunks) <= rem
    /\ closureOf r w' = Some (ConnLengthReader (rem - Buf.blen (List.concat chunks)))
    /\ bufOk (buf w')
    /\ List.concat chunks ++ unread w' = unread w
    /\ (In [] chunks -> Buf.blen (List.concat chunks) = rem).
Proof.
  induction k as [| k IH]; intros rem w w' chunks Hok Hrem Hcl; simpl pulls.
  - unfold ret. intros H. inversion H; subst; clear H. simpl.
    rewrite Z.sub_0_r. unfold Buf.blen; simpl. repeat split; try assumption; try lia;
      try apply Hok.
  - unfold bind at 1. rewrite (read_connLength r rem w Hcl).
    destruct (readConnLength (read_cell r) rem w) as [d w1 | | |] eqn:Hr; try discriminate.
    unfold bind at 1.
    destruct (pulls k r w1) as [ds w2 | | |] eqn:Hp; try discriminate.
    unfold ret. intros H. inversion H; subst; clear H. simpl List.concat.
    rewrite blen_app.
    destruct (Z.eq_dec rem 0) as [-> | Hnz].
    + rewrite readConnLength_exhausted in Hr. inversion Hr; subst; clear Hr.
      destruct (IH 0 _ _ _ Hok (Z.le_refl 0) Hcl Hp) as (I1 & I2 & I3 & I4 & I5).
      pose proof (blen_nonneg (List.concat ds)).
      replace (Buf.blen []) with 0 by reflexivity. simpl app.
      repeat split; try assumption; try lia; try apply I3.
    + assert (Hpos : 0 < rem) by lia.
      destruct (readConnLength_step _ _ _ _ _ Hok Hpos Hcl Hr)
        as (S1 & S2 & S3 & S4).
      assert (Hrem' : 0 <= rem - Buf.blen d) by lia.
      destruct (IH (rem - Buf.blen d) _ _ _ S3 Hrem' S2 Hp)
        as (I1 & I2 & I3 & I4 & I5).
      repeat split; try lia; try apply I3.
      * rewrite I2. do 2 f_equal. lia.
      * rewrite <- S4, <- I4, app_assoc. reflexivity.
      * intros [Hd | Hin]; [subst d; unfold Buf.blen in S1; simpl in S1; lia |].
        specialize (I5 Hin). lia.
Qed.

Lemma blen_subarray_front (b : DynBuf) (n : Z) :
  bufOk b -> 0 <= n <= length b -> Buf.blen (Buf.subarray (data b) 0 n) = n.
Proof.
  intros [H0 H1] Hn. rewrite subarray_front by lia. apply blen_firstn. lia.
Qed.

Lemma read_buffered (r : BodyReader) (rem : Z) (w : World) :
  bufOk (buf w) -> 0 < length (buf w) -> 0 < rem ->
  closureOf r w = Some (ConnLengthReader rem) ->
  exists d w', read r w = Ret d w'
               /\ conn w' = conn w
               /\ length (buf w') = length (buf w) - Buf.blen d
               /\ Buf.blen d = Z.min (length (buf w)) rem.
Proof.
  intros Hok Hlen Hrem Hcl. rewrite (read_connLength r rem w Hcl).
  unfold readConnLength.
  destruct (rem =? 0) eqn:E0; [apply Z.eqb_eq in E0; lia | clear E0].
  unfold bind at 1. unfold gets at 1. unfold bind at 1.
  destruct (length (buf w) =? 0) eqn:E; [apply Z.eqb_eq in E; lia | clear E].
  unfold ret at 1. unfold bind at 1. unfold gets at 1. unfold bind at 1.
  unfold setClosure at 1, modify at 1. unfold bind at 1.
  unfold onBuf, zoom. cbn [buf setClosures].
  destruct (bufPop_ok (Z.min (length (buf w)) rem) (buf w) Hok ltac:(lia))
    as (b3 & Hpop & _ & Hl3 & _).
  rewrite Hpop. unfold ret. do 2 eexists. split; [reflexivity |].
  rewrite (blen_subarray_front _ _ Hok) by lia.
  split; [reflexivity | split; [exact Hl3 | reflexivity]].
Qed.

Lemma read_refill (r : BodyReader) (rem : Z) (w : World) (d0 : Buffer) (ds : list Buffer) :
  bufOk (buf w) -> length (buf w) = 0 -> 0 < rem ->
  closureOf r w = Some (ConnLengthReader rem) ->
  delivers w (d0 :: ds) -> d0 <> [] ->
  exists d w', read r w = Ret d w'
               /\ delivers w' ds
               /\ length (buf w') = Buf.blen d0 - Buf.blen d
               /\ Buf.blen d = Z.min (Buf.blen d0) rem.
Proof.
  intros Hok Hlen Hrem Hcl (He & Hen & rest & Hin) Hne.
  rewrite (read_connLength r rem w Hcl).
  assert (Hd0 : 0 < Buf.blen d0).
  { destruct d0; [congruence | unfold Buf.blen; simpl; lia]. }
  unfold readConnLength.
  destruct (rem =? 0) eqn:E0; [apply Z.eqb_eq in E0; lia | clear E0].
  unfold bind at 1. unfold gets at 1. unfold bind at 1.
  rewrite Hlen. replace (0 =? 0) with true by reflexivity.
  unfold bind at 1. unfold soRead. rewrite He, Hen, Hin. simpl map. simpl app.
  cbv beta iota. unfold bind at 1. unfold onBuf at 1, zoom.
  cbn [buf withSocket withConn].
  destruct (bufPush_ok d0 (buf w) Hok) as (b2 & Hpush & _ & Hl2 & Hok2).
  rewrite Hpush.
  destruct (Buf.blen d0 =? 0) eqn:Ed; [apply Z.eqb_eq in Ed; lia | clear Ed].
  unfold ret at 1. unfold bind at 1. unfold gets at 1. unfold bind at 1.
  unfold setClosure at 1, modify at 1. unfold bind at 1.
  unfold onBuf, zoom. cbn [buf setBuf setClosures].
  rewrite Hlen, Z.add_0_l in Hl2. rewrite Hl2.
  destruct (bufPop_ok (Z.min (Buf.blen d0) rem) b2 Hok2 ltac:(lia))
    as (b3 & Hpop & _ & Hl3 & _).
  rewrite Hpop. unfold ret. do 2 eexists. split; [reflexivity |].
  rewrite (blen_subarray_front _ _ Hok2) by lia.
  split; [| cbn; split; [lia | reflexivity]].
  unfold delivers. cbn. repeat split; try assumption. exists rest. reflexivity.
Qed.

Lemma delivers_conn (w w' : World) (ds : list Buffer) :
  conn w' = conn w -> delivers w ds -> delivers w' ds.
Proof. unfold delivers. intros ->. exact (fun H => H). Qed.

Lemma pulls_one (r : BodyReader) (w w' : World) (d : Buffer) :
  read r w = Ret d w' -> pulls 1 r w = Ret [d] w'.
Proof. intros H. simpl. unfold bind. rewrite H. reflexivity. Qed.

Lemma pulls_cons (r : BodyReader) (k : nat) (w w1 w2 : World) (d : Buffer)
      (ds : list Buffer) :
  read r w = Ret d w1 -> pulls k r w1 = Ret ds w2 ->
  pulls (S k) r w = Ret (d :: ds) w2.
Proof. intros H1 H2. simpl. unfold bind. rewrite H1, H2. reflexivity. Qed.

Lemma pulls_complete_empty (r : BodyReader) (ds : list Buffer) :
  forall (rem : Z) (w : World),
    bufOk (buf w) -> length (buf w) = 0 ->
    delivers w ds -> Forall (fun d => d <> []) ds ->
    0 <= rem <= Buf.blen (List.concat ds) ->
    closureOf r w = Some (ConnLengthReader rem) ->
    exists k chunks w',
      pulls k r w = Ret chunks w' /\ Buf.blen (List.concat chunks) = rem.
Proof.
  induction ds as [| d0 ds IH]; intros rem w Hok Hlen Hdel Hne Hrem Hcl.
  - simpl in Hrem. replace (Buf.blen []) with 0 in Hrem by reflexivity.
    assert (rem = 0) by lia. subst rem.
    exists 0%nat, [], w. split; reflexivity.
  - destruct (Z.eq_dec rem 0) as [-> | Hnz].
    { exists 0%nat, [], w. split; reflexivity. }
    assert (Hpos : 0 < rem) by lia.
    inversion Hne as [| ? ? Hd0 Hne']; subst.
    destruct (read_refill r rem w d0 ds Hok Hlen Hpos Hcl Hdel Hd0)
      as (d & w1 & Hr & Hdel1 & Hl1 & Hd).
    pose proof Hr as Hr'. rewrite (read_connLength r rem w Hcl) in Hr'.
    destruct (readConnLength_step _ _ _ _ _ Hok Hpos Hcl Hr') as (_ & S2 & S3 & _).
    simpl in Hrem. rewrite blen_app in Hrem.
    destruct (Z.le_gt_cases rem (Buf.blen d0)) as [Hle | Hgt].
    + exists 1%nat, [d], w1. split; [apply pulls_one; exact Hr |].
      simpl. rewrite app_nil_r. lia.
    + assert (Hrem1 : 0 <= rem - Buf.blen d <= Buf.blen (List.concat ds)) by lia.
      assert (Hl0 : length (buf w1) = 0) by lia.
      destruct (IH _ w1 S3 Hl0 Hdel1 Hne' Hrem1 S2) as (k & chunks & w2 & Hp & Ht).
      exists (S k), (d :: chunks), w2.
      split; [eapply pulls_cons; eassumption |].
      simpl. rewrite blen_app. lia.
Qed.

Lemma pulls_complete (r : BodyReader) (ds : list Buffer) (rem : Z) (w : World) :
  bufOk (buf w) ->
  delivers w ds -> Forall (fun d => d <> []) ds ->
  0 <= rem <= length (buf w) + Buf.blen (List.concat ds) ->
  closureOf r w = Some (ConnLengthReader rem) ->
  exists k chunks w',
    pulls k r w = Ret chunks w' /\ Buf.blen (List.concat chunks) = rem.
Proof.
  intros Hok Hdel Hne Hrem Hcl.
  destruct (Z.eq_dec rem 0) as [-> | Hnz].
  { exists 0%nat, [], w. split; reflexivity. }
  assert (Hpos : 0 < rem) by lia.
  destruct (Z.eq_dec (length (buf w)) 0) as [Hl0 | Hl0].
  { apply (pulls_complete_empty r ds rem w); try assumption. lia. }
  assert (Hlen : 0 < length (buf w)) by (destruct Hok; lia).
  destruct (read_buffered r rem w Hok Hlen Hpos Hcl) as (d & w1 & Hr & Hc & Hl1 & Hd).
  pose proof Hr as Hr'. rewrite (read_connLength r rem w Hcl) in Hr'.
  destruct (readConnLength_step _ _ _ _ _ Hok Hpos Hcl Hr') as (_ & S2 & S3 & _).
  destruct (Z.le_gt_cases rem (length (buf w))) as [Hle | Hgt].
  - exists 1%nat, [d], w1. split; [apply pulls_one; exact Hr |].
    simpl. rewrite app_nil_r. lia.
  - assert (Hrem1 : 0 <= rem - Buf.blen d <= Buf.blen (List.concat ds)) by lia.
    assert (Hl1' : length (buf w1) = 0) by lia.
    destruct (pulls_complete_empty r ds _ w1 S3 Hl1' (delivers_conn _ _ _ Hc Hdel)
                                   Hne Hrem1 S2) as (k & chunks & w2 & Hp & Ht).
    exists (S k), (d :: chunks), w2.
    split; [eapply pulls_cons; eassumption |].
    simpl. rewrite blen_app. lia.
Qed.

(** ** Runs on concrete connections *)

Lemma cutMessage_header_limit_witness :
  (~ occursIn CRLFCRLF (view (bufferOf (repeat x41 (Z.to_nat 8192))))
   /\ cutMessage noLines rejectLine anyHeader (bufferOf (repeat x41 (Z.to_nat 8192)))
      = Throw (HTTPError 413 "header is too large")
              (bufferOf (repeat x41 (Z.to_nat 8192))))
  /\ (~ occursIn CRLFCRLF (view (bufferOf (repeat x41 (Z.to_nat 8191))))
      /\ cutMessage noLines rejectLine anyHeader (bufferOf (repeat x41 (Z.to_nat 8191)))
         = Ret None (bufferOf (repeat x41 (Z.to_nat 8191)))).
Proof.
  assert (H1 : ~ occursIn CRLFCRLF (view (bufferOf (repeat x41 (Z.to_nat 8192)))))
    by (apply indexOf_absent_iff; vm_compute; reflexivity).
  assert (H2 : ~ occursIn CRLFCRLF (view (bufferOf (repeat x41 (Z.to_nat 8191)))))
    by (apply indexOf_absent_iff; vm_compute; reflexivity).
  split; (split; [assumption |]).
  - apply (cutMessage_header_limit noLines rejectLine anyHeader _ H1).
    vm_compute. discriminate.
  - apply (cutMessage_header_limit noLines rejectLine anyHeader _ H2).
    vm_compute. reflexivity.
Defined.

Lemma serveLoop_end_of_stream_witness :
  serveLoop noLines rejectLine anyHeader noNumber headersOnly 1
            (worldWith [OnEnd] emptyBuf)
  = Ret tt (withConn (fun c => {| socket := socket c; err := err c; ended := true |})
                     (worldWith [] emptyBuf))
  /\ serveLoop noLines rejectLine anyHeader noNumber headersOnly 1
               (worldWith [OnEnd] (bufferOf (Buf.from "GET /")))
     = Throw (HTTPError 400 "Unexpected EOF")
             (withConn (fun c => {| socket := socket c; err := err c; ended := true |})
                       (worldWith [] (bufferOf (Buf.from "GET /")))).
Proof.
  split.
  - apply (serveLoop_end_of_stream noLines rejectLine anyHeader noNumber headersOnly
             0 (worldWith [OnEnd] emptyBuf) _ emptyBuf []).
    + unfold bufOk. vm_compute. split; discriminate.
    + reflexivity.
    + reflexivity.
    + reflexivity.
    + reflexivity.
  - apply (serveLoop_end_of_stream noLines rejectLine anyHeader noNumber headersOnly
             0 (worldWith [OnEnd] (bufferOf (Buf.from "GET /"))) _
             (bufferOf (Buf.from "GET /")) []).
    + unfold bufOk. vm_compute. split; discriminate.
    + reflexivity.
    + reflexivity.
    + reflexivity.
    + vm_compute. discriminate.
Defined.

(** ** The readers, pulled repeatedly *)

Lemma closureOf_fresh (w : World) (c : ReaderClosure) (n : Z) :
  closureOf {| body_length := n; read_cell := List.length (closures w) |}
            (setClosures (closures w ++ [c]) w) = Some c.
Proof.
  unfold closureOf, setClosures. cbn [closures read_cell].
  rewrite nth_error_app2 by apply Nat.le_refl.
  rewrite Nat.sub_diag. reflexivity.
Qed.

Lemma pulls_exhausted (r : BodyReader) (w : World) :
  read r w = Ret [] w -> forall j, pulls j r w = Ret (repeat [] j) w.
Proof.
  intros H j. induction j as [| j IH]; [reflexivity |].
  simpl. unfold bind. rewrite H, IH. reflexivity.
Qed.

(** C7.  A reader made by [readerFromConnLength] with length [n >= 0]
    has declared length [n], and for every number of successful pulls: the
    chunks returned hold at most [n] bytes; followed by what is then unread
    (the buffer, then what the socket has yet to deliver) they give back,
    in order, exactly what was unread when the reader was made, so nothing
    past the boundary is consumed and the bytes after it stay in the
    buffer; an empty chunk is returned only once the chunks hold [n] bytes;
    and once they do, every later pull returns the empty chunk and changes
    nothing, stream included.  Whenever the buffer and the chunks the
    socket delivers next hold [n] bytes, pulling does return chunks of [n]
    bytes in total. *)
Theorem readerFromConnLength_boundary (n : Z) (w w1 : World) (r : BodyReader) :
  0 <= n -> bufOk (buf w) ->
  readerFromConnLength n w = Ret r w1 ->
  body_length r = n
  /\ (forall k chunks w2,
         pulls k r w1 = Ret chunks w2 ->
         Buf.blen (List.concat chunks) <= n
         /\ List.concat chunks ++ unread w2 = unread w
         /\ (In [] chunks -> Buf.blen (List.concat chunks) = n)
         /\ (Buf.blen (List.concat chunks) = n ->
             forall j, pulls j r w2 = Ret (repeat [] j) w2))
  /\ (forall ds,
         delivers w ds -> Forall (fun d => d <> []) ds ->
         n <= length (buf w) + Buf.blen (List.concat ds) ->
         exists k chunks w2,
           pulls k r w1 = Ret chunks w2 /\ Buf.blen (List.concat chunks) = n).
Proof.
  intros Hn Hok Hmk. unfold readerFromConnLength in Hmk.
  inversion Hmk; subst r w1; clear Hmk.
  pose proof (closureOf_fresh w (ConnLengthReader n) n) as Hcl.
  set (r := {| body_length := n; read_cell := List.length (closures w) |}) in *.
  set (w1 := setClosures (closures w ++ [ConnLengthReader n]) w) in *.
  assert (Hok1 : bufOk (buf w1)) by exact Hok.
  split; [reflexivity | split].
  - intros k chunks w2 Hp.
    destruct (pulls_connLength r k n w1 w2 chunks Hok1 Hn Hcl Hp)
      as (P1 & P2 & P3 & P4 & P5).
    repeat split; try assumption.
    intros Hall. apply pulls_exhausted.
    rewrite Hall, Z.sub_diag in P2.
    rewrite (read_connLength r 0 w2 P2). apply readConnLength_exhausted.
  - intros ds Hdel Hne Hle.
    apply (pulls_complete r ds n w1); try assumption.
    change (buf w1) with (buf w). lia.
Qed.

Lemma readerFromConnLength_boundary_witness :
  let w := worldWith [OnData (Buf.from "defgh")] (bufferOf (Buf.from "abc")) in
  let r := {| body_length := 5; read_cell := 0 |} in
  let w1 := setClosures [ConnLengthReader 5] w in
  (0 <= 5 /\ bufOk (buf w) /\ readerFromConnLength 5 w = Ret r w1)
  /\ body_length r = 5
  /\ (forall k chunks w2,
         pulls k r w1 = Ret chunks w2 ->
         Buf.blen (List.concat chunks) <= 5
         /\ List.concat chunks ++ unread w2 = unread w
         /\ (In [] chunks -> Buf.blen (List.concat chunks) = 5)
         /\ (Buf.blen (List.concat chunks) = 5 ->
             forall j, pulls j r w2 = Ret (repeat [] j) w2))
  /\ (forall ds,
         delivers w ds -> Forall (fun d => d <> []) ds ->
         5 <= length (buf w) + Buf.blen (List.concat ds) ->
         exists k chunks w2,
           pulls k r w1 = Ret chunks w2 /\ Buf.blen (List.concat chunks) = 5).
Proof.
  intros w r w1.
  assert (H1 : 0 <= 5) by lia.
  assert (H2 : bufOk (buf w)) by (unfold bufOk; vm_compute; split; discriminate).
  assert (H3 : readerFromConnLength 5 w = Ret r w1) by reflexivity.
  split; [repeat split; assumption |].
  exact (readerFromConnLength_boundary 5 w w1 r H1 H2 H3).
Defined.

Example pulls_abc_de :
  let w := worldWith [OnData (Buf.from "defgh")] (bufferOf (Buf.from "abc")) in
  exists w2,
    (r <- readerFromConnLength 5 ;; pulls 3 r) w
    = Ret [Buf.from "abc"; Buf.from "de"; Buf.empty] w2
    /\ view (buf w2) = Buf.from "fgh".
Proof. eexists. split; vm_compute; reflexivity. Qed.

(** C10.  [readerFromMemory(d)] has declared length [d.length]; its first
    pull returns [d] whole, every later pull returns the empty chunk, and
    neither the connection nor the buffer is touched. *)
Theorem readerFromMemory_pulls (d : Buffer) (w : World) :
  exists r w1 w2,
    readerFromMemory d w = Ret r w1
    /\ body_length r = Buf.blen d
    /\ read r w1 = Ret d w2
    /\ (forall j, pulls j r w2 = Ret (repeat [] j) w2)
    /\ conn w2 = conn w /\ buf w2 = buf w.
Proof.
  pose proof (closureOf_fresh w (MemoryReader d false) (Buf.blen d)) as Hcl.
  set (r := {| body_length := Buf.blen d; read_cell := List.length (closures w) |}) in *.
  set (w1 := setClosures (closures w ++ [MemoryReader d false]) w) in *.
  exists r, w1.
  exists (setClosures (listSet (closures w1) (read_cell r) (MemoryReader d true)) w1).
  split; [reflexivity | split; [reflexivity |]].
  assert (Hread : read r w1 = Ret d (setClosures (listSet (closures w1) (read_cell r)
                                                          (MemoryReader d true)) w1)).
  { unfold read, bind, gets. unfold closureOf in Hcl. rewrite Hcl. reflexivity. }
  split; [exact Hread | split; [| split; reflexivity]].
  apply pulls_exhausted. unfold read, bind, gets. cbn [closures setClosures].
  unfold closureOf in Hcl. rewrite (nth_error_listSet _ _ _ _ Hcl). reflexivity.
Qed.

(** ** Where the code departs from the specification *)

(** C1.  [fieldGet] is the body [return null]: on a header list that holds
    a [Content-Length] field it returns none, where the lookup of the
    specification (first match by name, letter case ignored) returns that
    field. *)
Theorem fieldGet_misses_present_field :
  fieldGet [Buf.from "Host: x"; Buf.from "Content-Length: 5"] "content-length" = None
  /\ fieldGet_spec [Buf.from "Host: x"; Buf.from "Content-Length: 5"] "content-length"
     = Some (Buf.from "Content-Length: 5").
Proof. split; reflexivity. Qed.

Lemma fieldGet_none (hs : list Buffer) (key : string) : fieldGet hs key = None.
Proof. reflexivity. Qed.

Lemma readerFromReq_no_body (parseDec : string -> option Z) (req : HTTPReq) (w : World) :
  method req = "GET"%string \/ method req = "HEAD"%string ->
  readerFromReq parseDec req w = readerFromConnLength 0 w.
Proof.
  intros Hm. unfold readerFromReq. rewrite !fieldGet_none.
  unfold bind at 1. unfold ret at 1.
  destruct Hm as [-> | ->]; reflexivity.
Qed.

(** C9.  A [GET] request that carries both a [Content-Length] and a
    [Transfer-Encoding: chunked] header is not rejected: [readerFromReq]
    returns a reader of length 0.  Its two lookups go through [fieldGet],
    which finds no header, so the test that throws "HTTP body not allowed"
    never fires. *)
Theorem readerFromReq_accepts_get_with_length (parseDec : string -> option Z) (w : World) :
  readerFromReq parseDec
    {| method := "GET"; uri := Buf.from "/echo"; version := "1.1";
       req_headers := [Buf.from "Content-Length: 5";
                       Buf.from "Transfer-Encoding: chunked"] |} w
  = Ret {| body_length := 0; read_cell := List.length (closures w) |}
        (setClosures (closures w ++ [ConnLengthReader 0]) w).
Proof. reflexivity. Qed.

Lemma writeHTTPResp_throws (encodeHTTPResp : HTTPRes -> Buffer) (fuel : nat)
      (resp : HTTPRes) (w : World) :
  body_length (body resp) <> 0 ->
  writeHTTPResp encodeHTTPResp fuel resp w = Throw (Error "TODO: chunked encoding") w.
Proof.
  intros H. unfold writeHTTPResp. apply Z.eqb_neq in H. rewrite H. reflexivity.
Qed.

(** C2.  For a response whose body is the in-memory reader of the two
    bytes "hi", [writeHTTPResp] throws "TODO: chunked encoding" and writes
    nothing: its first test rejects every body length other than 0.  For a
    body of length 0 it does write, and the header it hands to the encoder
    is the text of the source's single-quoted string, placeholder included,
    not the decimal length. *)
Theorem writeHTTPResp_known_length_fails (encodeHTTPResp : HTTPRes -> Buffer) (fuel : nat) :
  (let w := worldWith [] emptyBuf in
   (body <- readerFromMemory (Buf.from "hi") ;;
    writeHTTPResp encodeHTTPResp fuel
                  {| code := JNum 200; headers := []; body := body |}) w
   = Throw (Error "TODO: chunked encoding")
           (setClosures [MemoryReader (Buf.from "hi") false] w))
  /\ (let w := worldWith [] emptyBuf in
      exists w',
        (body <- readerFromMemory (Buf.empty) ;;
         writeHTTPResp encodeHTTPResp (S fuel)
                       {| code := JNum 200; headers := []; body := body |}) w
        = Ret tt w'
        /\ written (socket (conn w'))
           = [encodeHTTPResp
                {| code := JNum 200;
                   headers := [Buf.from "Content-Length: ${resp.body.length}"];
                   body := {| body_length := 0; read_cell := 0 |} |}]).
Proof.
  split.
  - reflexivity.
  - eexists. split; [lazy; reflexivity | reflexivity].
Qed.

Lemma from_line_nonempty (msg : string) : Buf.blen (Buf.from (msg ++ LF)) <> 0.
Proof. destruct msg; unfold Buf.blen, Buf.from; simpl; lia. Qed.

Lemma onException_writes_nothing (encodeHTTPResp : HTTPRes -> Buffer) (fuel : nat)
      (sc : Z) (msg : string) (w : World) :
  exists w', onException encodeHTTPResp fuel (HTTPError sc msg) w = Ret tt w'
             /\ conn w' = conn w.
Proof.
  unfold onException. cbn [instanceofHTTPError].
  unfold bind at 1. unfold errorResp. unfold bind at 1. unfold readerFromMemory at 1.
  unfold ret at 1. unfold tryCatch.
  rewrite writeHTTPResp_throws by (cbn [body body_length]; apply from_line_nonempty).
  eexists. split; reflexivity.
Qed.

(** C4.  The response [newConn] builds for an [HTTPError] reads the
    property [code], which the class does not define (its constructor sets
    [statusCode]): the response code is [undefined] for every status.  On a
    connection that sends "GET /" and ends, [serveClient] throws the
    [HTTPError] with status 400; [newConn] then writes nothing at all (the
    response writer throws on the non-empty body and that is ignored) and
    destroys the socket. *)
Theorem newConn_error_response_lost
    (splitLines : Buffer -> list Buffer)
    (parseRequestLine : option Buffer -> exn + (string * Buffer * string))
    (validateHeader : Buffer -> bool)
    (parseDec : string -> option Z)
    (encodeHTTPResp : HTTPRes -> Buffer)
    (fuel : nat) :
  (forall sc msg w,
      exists body w',
        errorResp (HTTPError sc msg) w
        = Ret {| code := JUndefined; headers := []; body := body |} w')
  /\ serveClient splitLines parseRequestLine validateHeader parseDec encodeHTTPResp
                 (S (S fuel)) (worldWith [OnData (Buf.from "GET /"); OnEnd] emptyBuf)
     = Throw (HTTPError 400 "Unexpected EOF")
             (withConn (fun c => {| socket := socket c; err := err c; ended := true |})
                       (worldWith [] (bufferOf (Buf.from "GET /"))))
  /\ exists w',
      newConn splitLines parseRequestLine validateHeader parseDec encodeHTTPResp
              (S (S fuel)) (socketWith [OnData (Buf.from "GET /"); OnEnd])
      = Ret tt w'
      /\ written (socket (conn w')) = []
      /\ destroyed (socket (conn w')) = true.
Proof.
  split; [| split].
  - intros sc msg w. do 2 eexists. reflexivity.
  - vm_compute. reflexivity.
  - eexists. split; [vm_compute; reflexivity | split; reflexivity].
Qed.

(** ** The buffer invariant along a whole connection *)

Lemma keepsOk_ret {A} (a : A) : keepsOk (ret a).
Proof. intros w H. exact H. Qed.

Lemma keepsOk_throw {A} (e : exn) : keepsOk (@throw World A e).
Proof. intros w H. exact H. Qed.

Lemma keepsOk_gets {A} (f : World -> A) : keepsOk (gets f).
Proof. intros w H. exact H. Qed.

Lemma keepsOk_bind {A B} (m : M World A) (k : A -> M World B) :
  keepsOk m -> (forall a, keepsOk (k a)) -> keepsOk (bind m k).
Proof.
  intros Hm Hk w H. specialize (Hm w H). unfold bind.
  destruct (m w) as [a w' | e w' | w' |]; try assumption.
  apply Hk. exact Hm.
Qed.

Lemma keepsOk_tryCatch {A} (m : M World A) (h : exn -> M World A) :
  keepsOk m -> (forall e, keepsOk (h e)) -> keepsOk (tryCatch m h).
Proof.
  intros Hm Hh w H. specialize (Hm w H). unfold tryCatch.
  destruct (m w) as [a w' | e w' | w' |]; try assumption.
  apply Hh. exact Hm.
Qed.

Lemma keepsOk_soRead : keepsOk soRead.
Proof.
  intros w H. unfold soRead. destruct (err (conn w)); [exact H |].
  destruct (ended (conn w)); [exact H |].
  destruct (incoming (socket (conn w))) as [| [d | | e] rest]; exact H.
Qed.

Lemma keepsOk_soWrite (d : Buffer) : keepsOk (soWrite d).
Proof.
  intros w H. unfold soWrite. destruct (writeErr (socket (conn w))); exact H.
Qed.

Lemma keepsOk_destroy : keepsOk destroy.
Proof. intros w H. exact H. Qed.

Lemma keepsOk_bufPush (d : Buffer) : keepsOk (onBuf (bufPush d)).
Proof.
  intros w [Hb Hc]. unfold onBuf, zoom.
  destruct (bufPush_ok d (buf w) Hb) as (b' & -> & _ & _ & Hb').
  split; assumption.
Qed.

Lemma Forall_listSet {A} (P : A -> Prop) (l : list A) (i : nat) (x : A) :
  Forall P l -> P x -> Forall P (listSet l i x).
Proof.
  intros Hl Hx. revert i. induction Hl as [| y l Hy Hl IH]; intros [| i]; simpl;
    constructor; auto.
Qed.

Lemma keepsOk_setClosure (cell : nat) (c : ReaderClosure) :
  closureOk c -> keepsOk (setClosure cell c).
Proof.
  intros Hc w [Hb Hcs]. split; [exact Hb |].
  apply Forall_listSet; assumption.
Qed.

Lemma keepsOk_readerFromMemory (d : Buffer) : keepsOk (readerFromMemory d).
Proof.
  intros w [Hb Hcs]. split; [exact Hb |].
  apply Forall_app. split; [exact Hcs | repeat constructor].
Qed.

Lemma keepsOk_readerFromConnLength (n : Z) :
  0 <= n -> keepsOk (readerFromConnLength n).
Proof.
  intros Hn w [Hb Hcs]. split; [exact Hb |].
  apply Forall_app. split; [exact Hcs | repeat constructor; exact Hn].
Qed.

Lemma keepsOk_readMemory (cell : nat) (d : Buffer) (done : bool) :
  keepsOk (readMemory cell d done).
Proof.
  unfold readMemory. destruct done; [apply keepsOk_ret |].
  apply keepsOk_bind; [apply keepsOk_setClosure; exact I | intros; apply keepsOk_ret].
Qed.

Lemma keepsOk_readConnLength (cell : nat) (remain : Z) :
  0 <= remain -> keepsOk (readConnLength cell remain).
Proof.
  intros Hrem. unfold readConnLength.
  destruct (remain =? 0); [apply keepsOk_ret |].
  apply keepsOk_bind; [apply keepsOk_gets | intros b0].
  apply keepsOk_bind.
  { destruct (length b0 =? 0); [| apply keepsOk_ret].
    apply keepsOk_bind; [apply keepsOk_soRead | intros d].
    apply keepsOk_bind; [apply keepsOk_bufPush | intros _].
    destruct (Buf.blen d =? 0); [apply keepsOk_throw | apply keepsOk_ret]. }
  intros _ w Hw. unfold bind at 1, gets at 1. unfold bind at 1.
  unfold setClosure at 1, modify at 1. unfold bind at 1.
  unfold onBuf, zoom. cbn [buf setClosures].
  destruct Hw as [Hb Hcs].
  (* the amount consumed lies within the unread length whenever that is so *)
  destruct (Z.le_gt_cases 0 (Z.min (length (buf w)) remain)) as [Hge | Hlt];
    [| destruct Hb; lia].
  destruct (bufPop_ok (Z.min (length (buf w)) remain) (buf w) Hb ltac:(lia))
    as (b' & -> & _ & _ & Hb').
  unfold ret. split; [exact Hb' |]. cbn [closures setBuf setClosures].
  apply Forall_listSet; [exact Hcs | simpl; lia].
Qed.

Lemma keepsOk_read (r : BodyReader) : keepsOk (read r).
Proof.
  intros w Hw. unfold read, bind, gets.
  destruct (nth_error (closures w) (read_cell r)) as [[remain | d done] |] eqn:E.
  - apply keepsOk_readConnLength; [| exact Hw].
    destruct Hw as [_ Hcs]. rewrite Forall_forall in Hcs.
    apply (Hcs (ConnLengthReader remain)). eapply nth_error_In. exact E.
  - apply keepsOk_readMemory. exact Hw.
  - exact Hw.
Qed.

Lemma isPrefix_blen (p b : Buffer) :
  Buf.isPrefix p b = true -> Buf.blen p <= Buf.blen b.
Proof.
  intros H. apply isPrefix_iff in H. destruct H as [post ->].
  rewrite blen_app. pose proof (blen_nonneg post). lia.
Qed.

(** A found offset leaves room for the whole pattern. *)
Lemma indexOfFrom_bound (pat b : Buffer) :
  forall i, Buf.indexOfFrom b pat i = -1
            \/ (i <= Buf.indexOfFrom b pat i
                /\ Buf.indexOfFrom b pat i - i + Buf.blen pat <= Buf.blen b).
Proof.
  induction b as [| x b IH]; intros i; simpl.
  - destruct (Buf.isPrefix pat []) eqn:E; [| left; reflexivity].
    right. apply isPrefix_blen in E. unfold Buf.blen in *. simpl in *. lia.
  - destruct (Buf.isPrefix pat (x :: b)) eqn:E.
    + right. apply isPrefix_blen in E. unfold Buf.blen in *. simpl in *. lia.
    + destruct (IH (i + 1)) as [H | [H1 H2]]; [left; exact H | right].
      unfold Buf.blen in *. simpl List.length. lia.
Qed.

Section Invariant.
Variable splitLines : Buffer -> list Buffer.
Variable parseRequestLine : option Buffer -> exn + (string * Buffer * string).
Variable validateHeader : Buffer -> bool.
Variable parseDec : string -> option Z.
Variable encodeHTTPResp : HTTPRes -> Buffer.

Lemma headerFields_pure {S} (lines : list Buffer) (s : S) :
  match headerFields validateHeader lines s with
  | Ret _ s' | Throw _ s' => s' = s
  | _ => False
  end.
Proof.
  induction lines as [| h lines IH]; simpl; [reflexivity |].
  destruct (validateHeader h); [| reflexivity].
  unfold bind. destruct (headerFields validateHeader lines s); try assumption.
Qed.

Lemma parseHTTPReq_pure {S} (d : Buffer) (s : S) :
  match parseHTTPReq splitLines parseRequestLine validateHeader d s with
  | Ret _ s' | Throw _ s' => s' = s
  | _ => False
  end.
Proof.
  unfold parseHTTPReq.
  destruct (parseRequestLine _) as [e | [[m u] v]]; [reflexivity |].
  unfold bind.
  pose proof (headerFields_pure (removelast (tl (splitLines d))) s) as H.
  destruct (headerFields validateHeader _ s); try assumption.
Qed.

(** [cutMessage] consumes a header block that lies within the unread
    bytes, so the buffer stays within its backing array. *)
Lemma cutMessage_keeps_bufOk (b : DynBuf) :
  bufOk b ->
  match cutMessage splitLines parseRequestLine validateHeader b with
  | Ret _ b' | Throw _ b' | Pending b' => bufOk b'
  | OutOfFuel => True
  end.
Proof.
  intros Hok. unfold cutMessage, bind, gets, id. cbv beta iota.
  destruct (view_ok b Hok) as [_ Hvl]. unfold view in Hvl.
  pose proof (indexOfFrom_bound CRLFCRLF (Buf.subarray (data b) 0 (length b)) 0) as Hb.
  fold (Buf.indexOf (Buf.subarray (data b) 0 (length b)) CRLFCRLF) in Hb.
  destruct (_ <? 0) eqn:E.
  - destruct (kMaxHeaderLen <=? length b); exact Hok.
  - apply Z.ltb_ge in E. destruct Hb as [Hb | [Hb1 Hb2]]; [lia |].
    rewrite Hvl in Hb2. change (Buf.blen CRLFCRLF) with 4 in Hb2.
    pose proof (parseHTTPReq_pure
                  (Buf.subarray (data b) 0
                     (Buf.indexOf (Buf.subarray (data b) 0 (length b)) CRLFCRLF + 4))
                  b) as Hp.
    destruct (parseHTTPReq _ _ _ _ b) as [msg b1 | e b1 | |];
      try contradiction; subst b1; [| exact Hok].
    destruct (bufPop_ok (Buf.indexOf (Buf.subarray (data b) 0 (length b)) CRLFCRLF + 4)
                        b Hok ltac:(lia)) as (b' & -> & _ & _ & Hok').
    exact Hok'.
Qed.

Lemma keepsOk_cutMessage :
  keepsOk (onBuf (cutMessage splitLines parseRequestLine validateHeader)).
Proof.
  intros w [Hb Hcs]. unfold onBuf, zoom.
  pose proof (cutMessage_keeps_bufOk (buf w) Hb) as H.
  destruct (cutMessage _ _ _ (buf w)); try exact I; split; assumption.
Qed.

Lemma keepsOk_readerFromReq (req : HTTPReq) : keepsOk (readerFromReq parseDec req).
Proof.
  unfold readerFromReq. apply keepsOk_bind.
  - destruct (fieldGet _ _); [| apply keepsOk_ret].
    destruct (parseDec _); [apply keepsOk_ret | apply keepsOk_throw].
  - intros bodyLen.
    destruct (negb _ && _); [apply keepsOk_throw |].
    destruct (0 <=? _) eqn:E.
    + apply keepsOk_readerFromConnLength. apply Z.leb_le. exact E.
    + destruct (match fieldGet _ _ with Some _ => _ | None => _ end);
        apply keepsOk_throw.
Qed.

Lemma keepsOk_handleReq (req : HTTPReq) (body : BodyReader) :
  keepsOk (handleReq req body).
Proof.
  unfold handleReq. apply keepsOk_bind; [| intros; apply keepsOk_ret].
  destruct (String.eqb _ _); [apply keepsOk_ret | apply keepsOk_readerFromMemory].
Qed.

Lemma keepsOk_writeBody (fuel : nat) (b : BodyReader) : keepsOk (writeBody fuel b).
Proof.
  induction fuel as [| fuel IH]; simpl; [intros w _; exact I |].
  apply keepsOk_bind; [apply keepsOk_read | intros d].
  destruct (Buf.blen d =? 0); [apply keepsOk_ret |].
  apply keepsOk_bind; [apply keepsOk_soWrite | intros _; exact IH].
Qed.

Lemma keepsOk_writeHTTPResp (fuel : nat) (resp : HTTPRes) :
  keepsOk (writeHTTPResp encodeHTTPResp fuel resp).
Proof.
  unfold writeHTTPResp. destruct (negb _); [apply keepsOk_throw |].
  apply keepsOk_bind; [apply keepsOk_soWrite | intros _; apply keepsOk_writeBody].
Qed.

Lemma keepsOk_drain (fuel : nat) (b : BodyReader) : keepsOk (drain fuel b).
Proof.
  induction fuel as [| fuel IH]; simpl; [intros w _; exact I |].
  apply keepsOk_bind; [apply keepsOk_read | intros d].
  destruct (0 <? Buf.blen d); [exact IH | apply keepsOk_ret].
Qed.

Lemma keepsOk_serveLoop (fuel : nat) :
  keepsOk (serveLoop splitLines parseRequestLine validateHeader parseDec
                     encodeHTTPResp fuel).
Proof.
  induction fuel as [| fuel IH]; simpl; [intros w _; exact I |].
  apply keepsOk_bind; [apply keepsOk_cutMessage | intros [msg |]].
  - apply keepsOk_bind; [apply keepsOk_readerFromReq | intros reqBody].
    apply keepsOk_bind; [apply keepsOk_handleReq | intros res].
    apply keepsOk_bind; [apply keepsOk_writeHTTPResp | intros _].
    destruct (String.eqb _ _); [apply keepsOk_ret |].
    apply keepsOk_bind; [apply keepsOk_drain | intros _; exact IH].
  - apply keepsOk_bind; [apply keepsOk_soRead | intros d].
    apply keepsOk_bind; [apply keepsOk_bufPush | intros _].
    apply keepsOk_bind; [apply keepsOk_gets | intros b].
    destruct (_ && _); [apply keepsOk_ret |].
    destruct (Buf.blen d =? 0); [apply keepsOk_throw | exact IH].
Qed.

Lemma keepsOk_onException (fuel : nat) (exc : exn) :
  keepsOk (onException encodeHTTPResp fuel exc).
Proof.
  unfold onException. destruct (instanceofHTTPError exc); [| apply keepsOk_ret].
  apply keepsOk_bind.
  - unfold errorResp. apply keepsOk_bind;
      [apply keepsOk_readerFromMemory | intros; apply keepsOk_ret].
  - intros resp. apply keepsOk_tryCatch;
      [apply keepsOk_writeHTTPResp | intros; apply keepsOk_ret].
Qed.

(** However a connection goes, it ends in a world whose buffer length
    lies within the backing array: no [bufPop] of the server ever asks
    for more than is unread. *)
Theorem newConn_keeps_worldOk (fuel : nat) (s : Socket) :
  match newConn splitLines parseRequestLine validateHeader parseDec
                encodeHTTPResp fuel s with
  | Ret _ w | Throw _ w | Pending w => worldOk w
  | OutOfFuel => True
  end.
Proof.
  unfold newConn, tryFinally.
  set (w0 := {| conn := soInit s; buf := emptyBuf; closures := [] |}).
  assert (H0 : worldOk w0).
  { split; [unfold bufOk; vm_compute; split; discriminate | constructor]. }
  assert (Hk : keepsOk (tryCatch (serveClient splitLines parseRequestLine validateHeader
                                              parseDec encodeHTTPResp fuel)
                                 (onException encodeHTTPResp fuel))).
  { apply keepsOk_tryCatch; [| apply keepsOk_onException].
    unfold serveClient. apply keepsOk_bind; [| intros _; apply keepsOk_serveLoop].
    intros w [_ Hcs]. split; [unfold bufOk; vm_compute; split; discriminate | exact Hcs]. }
  specialize (Hk w0 H0).
  destruct (tryCatch _ _ w0) as [a w | e w | w |]; try assumption.
Qed.
End Invariant.

End HttpServerFacts.

(** * Facts about [src/server.ts] *)

Module LineServerFacts.
Import LineServer.

(** Whatever [cutMessage] returns, it leaves [buf.length] as it was: the
    statement [buf.length -= (idx + 1 - buf.start)] runs after
    [buf.start = idx + 1] and so subtracts 0. *)
Lemma cutMessage_keeps_length (b b' : DynBuf) (msg : option Buffer) :
  cutMessage b = Ret msg b' -> length b' = length b.
Proof.
  unfold cutMessage, bind, gets, modify, ret, id. cbv beta iota.
  destruct (_ <? 0).
  - intros H. inversion H; subst. reflexivity.
  - cbn [data length start].
    destruct (_ <? _); intros H; inversion H; subst; cbn [length]; lia.
Qed.

(** C3.  After "PING\n" is pushed into the empty buffer, [cutMessage]
    returns the message "PING\n", but the buffer keeps its length 5 and
    its content: the message is still there, and a second [cutMessage]
    returns it again. *)
Theorem cutMessage_leaves_message_buffered :
  exists b0 b1 b2,
    bufPush (Buf.from ("PING" ++ LF)) emptyBuf = Ret tt b0
    /\ cutMessage b0 = Ret (Some (Buf.from ("PING" ++ LF))) b1
    /\ length b1 = 5 /\ start b1 = 5
    /\ Buf.subarray (data b1) 0 (length b1) = Buf.from ("PING" ++ LF)
    /\ cutMessage b1 = Ret (Some (Buf.from ("PING" ++ LF))) b2.
Proof.
  do 3 eexists. split; [vm_compute; reflexivity |].
  split; [vm_compute; reflexivity |].
  split; [reflexivity |]. split; [reflexivity |]. split; [reflexivity |].
  vm_compute. reflexivity.
Qed.

End LineServerFacts.

(** * Further facts about [src/httpServer.ts] *)

Module HttpServerMore.
Import HttpServer HttpProps MoreProps BufFacts HttpServerFacts.
#[local] Open Scope js_scope.

(** ** The capacity of the buffer *)

Lemma growCap_shape (fuel : nat) :
  forall cap newLen,
    0 < cap ->
    exists k, 0 <= k
              /\ growCap fuel cap newLen = cap * 2 ^ k
              /\ (k = 0 \/ growCap fuel cap newLen < 2 * newLen).
Proof.
  induction fuel as [| fuel IH]; intros cap newLen Hc; simpl growCap.
  - exists 0. rewrite Z.mul_1_r. destruct (cap <? newLen); repeat split; auto; lia.
  - destruct (cap <? newLen) eqn:E.
    + apply Z.ltb_lt in E.
      destruct (IH (cap * 2) newLen ltac:(lia)) as (k & Hk & Hg & Hm).
      exists (k + 1). rewrite Z.pow_add_r by lia. rewrite Hg.
      split; [lia |]. split; [change (2 ^ 1) with 2; ring |].
      right. destruct Hm as [-> | Hm]; [| lia].
      change (2 ^ 0) with 1. lia.
    + exists 0. rewrite Z.mul_1_r. repeat split; auto; lia.
Qed.

Lemma bufPush_grown (d : Buffer) (b : DynBuf) :
  bufOk b -> d <> [] ->
  exists b',
    bufPush d b = Ret tt b'
    /\ Buf.blen (data b')
       = growCap (Z.to_nat (length b + Buf.blen d)) (Z.max (Buf.blen (data b)) 32)
                 (length b + Buf.blen d).
Proof.
  intros [H0 H1] Hne. destruct b as [dat len]. cbn [data length] in *.
  assert (Hd : 0 < Buf.blen d).
  { destruct d; [congruence | unfold Buf.blen; simpl; lia]. }
  cbv [bufPush bind gets id]. cbv beta iota. cbn [data length].
  destruct (len <? len + Buf.blen d) eqn:E; [| apply Z.ltb_ge in E; lia].
  destruct (growCap_enough (Z.max (Buf.blen dat) 32) (len + Buf.blen d))
    as [G1 G2]; [lia |].
  set (cap := growCap _ _ _) in *.
  unfold copyInto at 1.
  rewrite copy_fits by (rewrite ?blen_alloc; lia).
  cbv [ret modify]. cbn [data length].
  simpl firstn. rewrite app_nil_l. simpl Nat.add.
  set (grown := dat ++ skipn (List.length dat) (Buf.alloc cap)).
  assert (Hg : Buf.blen grown = cap).
  { unfold grown. rewrite blen_app. unfold Buf.blen.
    rewrite length_skipn. unfold Buf.alloc. rewrite repeat_length.
    unfold Buf.blen in *. lia. }
  unfold copyInto. rewrite copy_fits by lia.
  eexists. split; [reflexivity |]. cbn [data].
  rewrite !blen_app. rewrite blen_firstn by lia.
  unfold Buf.blen at 2. rewrite length_skipn. unfold Buf.blen in *. lia.
Qed.

(** X1.  [bufPush] of the empty buffer changes nothing.  [bufPush] of a
    non-empty buffer reallocates: the new capacity is the old one (at least
    32) doubled some number of times, it holds the new length, and unless no
    doubling was needed it is less than twice the new length. *)
Theorem bufPush_capacity (d : Buffer) (b b' : DynBuf) :
  bufOk b ->
  bufPush d b = Ret tt b' ->
  (d = [] -> b' = b)
  /\ (d <> [] ->
      exists k, 0 <= k
                /\ Buf.blen (data b') = Z.max (Buf.blen (data b)) 32 * 2 ^ k
                /\ length b' <= Buf.blen (data b')
                /\ (k = 0 \/ Buf.blen (data b') < 2 * length b')).
Proof.
  intros Hok Hrun. split.
  - intros ->. rewrite (bufPush_nil b Hok) in Hrun. inversion Hrun. reflexivity.
  - intros Hne.
    destruct (bufPush_grown d b Hok Hne) as (b1 & Hrun1 & Hcap).
    rewrite Hrun1 in Hrun. inversion Hrun; subst b1; clear Hrun.
    destruct (bufPush_ok d b Hok) as (b2 & Hrun2 & _ & Hlen & Hok2).
    rewrite Hrun1 in Hrun2. inversion Hrun2; subst b2; clear Hrun2.
    destruct (growCap_shape (Z.to_nat (length b + Buf.blen d))
                            (Z.max (Buf.blen (data b)) 32) (length b + Buf.blen d))
      as (k & Hk & Hg & Hm); [lia |].
    exists k. rewrite Hcap, Hlen. rewrite <- Hcap.
    repeat split; try assumption; try (rewrite Hcap; exact Hg).
    + rewrite <- Hlen. apply Hok2.
    + destruct Hm as [Hm | Hm]; [left; exact Hm | right; rewrite Hcap; exact Hm].
Qed.

Lemma bufPush_capacity_witness :
  (bufOk emptyBuf
   /\ bufPush (repeat x41 33) emptyBuf = Ret tt (bufferOf (repeat x41 33)))
  /\ exists k, 0 <= k
               /\ Buf.blen (data (bufferOf (repeat x41 33)))
                  = Z.max (Buf.blen (data emptyBuf)) 32 * 2 ^ k
               /\ length (bufferOf (repeat x41 33))
                  <= Buf.blen (data (bufferOf (repeat x41 33)))
               /\ (k = 0 \/ Buf.blen (data (bufferOf (repeat x41 33)))
                            < 2 * length (bufferOf (repeat x41 33))).
Proof.
  assert (H1 : bufOk emptyBuf) by (unfold bufOk; vm_compute; split; discriminate).
  assert (H2 : bufPush (repeat x41 33) emptyBuf = Ret tt (bufferOf (repeat x41 33)))
    by reflexivity.
  split; [split; assumption |].
  apply (proj2 (bufPush_capacity (repeat x41 33) emptyBuf _ H1 H2)).
  discriminate.
Defined.

(** ** The framer on a complete header *)

Lemma indexOfFrom_unfold (b pat : Buffer) (i : Z) :
  Buf.indexOfFrom b pat i
  = if Buf.isPrefix pat b then i
    else match b with
         | [] => -1
         | _ :: b' => Buf.indexOfFrom b' pat (i + 1)
         end.
Proof. destruct b; reflexivity. Qed.

Lemma isPrefix_app_short (p a c : Buffer) :
  Buf.isPrefix p (a ++ c) = true -> (List.length p <= List.length a)%nat ->
  Buf.isPrefix p a = true.
Proof.
  revert a. induction p as [| x p IH]; intros a H Hl; [reflexivity |].
  destruct a as [| y a]; [simpl in Hl; lia |].
  simpl in *. apply andb_true_iff in H. destruct H as [Hxy H].
  rewrite Hxy. simpl. apply IH; [exact H | lia].
Qed.

(** The offset of the first occurrence. *)
Lemma indexOfFrom_first (p0 : Buffer) (c : byte) (pre post : Buffer) :
  ~ occursIn (p0 ++ [c]) (pre ++ p0) ->
  forall i, Buf.indexOfFrom (pre ++ (p0 ++ [c]) ++ post) (p0 ++ [c]) i = i + Buf.blen pre.
Proof.
  induction pre as [| x pre IH]; intros Hno i; rewrite indexOfFrom_unfold.
  - simpl app.
    assert (E : Buf.isPrefix (p0 ++ [c]) ((p0 ++ [c]) ++ post) = true)
      by (apply isPrefix_iff; exists post; reflexivity).
    rewrite E. unfold Buf.blen. simpl. lia.
  - destruct (Buf.isPrefix (p0 ++ [c]) ((x :: pre) ++ (p0 ++ [c]) ++ post)) eqn:E.
    + exfalso. apply Hno.
      assert (E' : Buf.isPrefix (p0 ++ [c]) ((x :: pre) ++ p0) = true).
      { apply (isPrefix_app_short _ _ ([c] ++ post)).
        - rewrite <- E. f_equal. rewrite <- !app_assoc. reflexivity.
        - rewrite !length_app. simpl. lia. }
      apply isPrefix_iff in E'. destruct E' as [rest E'].
      exists [], rest. exact E'.
    + change ((x :: pre) ++ (p0 ++ [c]) ++ post)
        with (x :: (pre ++ (p0 ++ [c]) ++ post)).
      cbv iota. rewrite IH.
      * unfold Buf.blen. simpl List.length. lia.
      * intros (a & z & Hocc). apply Hno. exists (x :: a), z.
        simpl. rewrite Hocc. reflexivity.
Qed.

Section Framer.
Variable splitLines : Buffer -> list Buffer.
Variable parseRequestLine : option Buffer -> exn + (string * Buffer * string).
Variable validateHeader : Buffer -> bool.

(** X2.  When the unread content is a header block ending in the first
    ["\r\n\r\n"] of the buffer, followed by [post]: [cutMessage] parses
    exactly the block through that delimiter; if the parser returns a
    request, [cutMessage] returns it and what stays unread is exactly [post]
    (the bytes of the next request are kept); if the parser throws,
    [cutMessage] throws the same and the buffer is as it was. *)
Theorem cutMessage_first_header (b : DynBuf) (pre post : Buffer) :
  bufOk b ->
  view b = pre ++ CRLFCRLF ++ post ->
  ~ occursIn CRLFCRLF (pre ++ [x0d; x0a; x0d]) ->
  (forall msg,
      parseHTTPReq splitLines parseRequestLine validateHeader (pre ++ CRLFCRLF) b
      = Ret msg b ->
      exists b', cutMessage splitLines parseRequestLine validateHeader b
                 = Ret (Some msg) b'
                 /\ view b' = post /\ bufOk b')
  /\ (forall e,
         parseHTTPReq splitLines parseRequestLine validateHeader (pre ++ CRLFCRLF) b
         = Throw e b ->
         cutMessage splitLines parseRequestLine validateHeader b = Throw e b).
Proof.
  intros Hok Hview Hfirst.
  destruct (view_ok b Hok) as [Hv Hvl].
  assert (Hidx : Buf.indexOf (Buf.subarray (data b) 0 (length b)) CRLFCRLF
                 = Buf.blen pre).
  { fold (view b). rewrite Hview. unfold Buf.indexOf.
    change CRLFCRLF with ([x0d; x0a; x0d] ++ [x0a]).
    rewrite (indexOfFrom_first [x0d; x0a; x0d] x0a pre post Hfirst 0). lia. }
  pose proof (blen_nonneg pre) as Hpre. pose proof (blen_nonneg post) as Hpost.
  assert (Hlen : Buf.blen pre + 4 <= length b).
  { rewrite <- Hvl, Hview, !blen_app. change (Buf.blen CRLFCRLF) with 4. lia. }
  assert (Hblock : Buf.subarray (data b) 0 (Buf.blen pre + 4) = pre ++ CRLFCRLF).
  { rewrite subarray_front by lia.
    replace (firstn (Z.to_nat (Buf.blen pre + 4)) (data b))
      with (firstn (Z.to_nat (Buf.blen pre + 4)) (view b))
      by (rewrite Hv, firstn_firstn; f_equal; lia).
    rewrite Hview, app_assoc. rewrite firstn_app.
    replace (Z.to_nat (Buf.blen pre + 4) - List.length (pre ++ CRLFCRLF))%nat
      with 0%nat by (rewrite length_app; unfold Buf.blen; simpl; lia).
    simpl firstn at 2. rewrite app_nil_r. apply firstn_all2.
    rewrite length_app. unfold Buf.blen. simpl. lia. }
  assert (Hcut : cutMessage splitLines parseRequestLine validateHeader b
                 = (msg <- parseHTTPReq splitLines parseRequestLine validateHeader
                                        (pre ++ CRLFCRLF) ;;
                    bufPop (Buf.blen pre + 4) ;; ret (Some msg)) b).
  { unfold cutMessage. unfold bind at 1. unfold gets at 1, id.
    rewrite Hidx. destruct (Buf.blen pre <? 0) eqn:E; [apply Z.ltb_lt in E; lia |].
    rewrite Hblock. reflexivity. }
  split.
  - intros msg Hparse. rewrite Hcut. unfold bind at 1. rewrite Hparse.
    destruct (bufPop_ok (Buf.blen pre + 4) b Hok ltac:(lia))
      as (b' & Hpop & Hv' & _ & Hok').
    exists b'. unfold bind. rewrite Hpop. split; [reflexivity |].
    split; [| exact Hok'].
    rewrite Hv', Hview, app_assoc. rewrite skipn_app.
    replace (Z.to_nat (Buf.blen pre + 4) - List.length (pre ++ CRLFCRLF))%nat
      with 0%nat by (rewrite length_app; unfold Buf.blen; simpl; lia).
    rewrite skipn_all2 by (rewrite length_app; unfold Buf.blen; simpl; lia).
    reflexivity.
  - intros e Hparse. rewrite Hcut. unfold bind at 1. rewrite Hparse. reflexivity.
Qed.

(** X3.  [cutMessage] changes the buffer only when it returns a request:
    when it asks for more data or throws, the buffer is as it was, and it
    never suspends. *)
Theorem cutMessage_consumes_only_on_success (b : DynBuf) :
  match cutMessage splitLines parseRequestLine validateHeader b with
  | Ret None b' => b' = b
  | Ret (Some _) _ => True
  | Throw _ b' => b' = b
  | Pending _ | OutOfFuel => False
  end.
Proof.
  unfold cutMessage, bind, gets, id. cbv beta iota.
  destruct (_ <? 0).
  - destruct (kMaxHeaderLen <=? length b); reflexivity.
  - pose proof (parseHTTPReq_pure splitLines parseRequestLine validateHeader
                  (Buf.subarray (data b) 0
                     (Buf.indexOf (Buf.subarray (data b) 0 (length b)) CRLFCRLF + 4))
                  b) as Hp.
    destruct (parseHTTPReq _ _ _ _ b) as [msg b1 | e b1 | |]; try contradiction.
    + exact I.
    + exact Hp.
Qed.

End Framer.

Lemma cutMessage_first_header_witness :
  let b := bufferOf (Buf.from "GET /echo HTTP/1.1" ++ CRLFCRLF ++ Buf.from "next") in
  (bufOk b
   /\ view b = Buf.from "GET /echo HTTP/1.1" ++ CRLFCRLF ++ Buf.from "next"
   /\ ~ occursIn CRLFCRLF (Buf.from "GET /echo HTTP/1.1" ++ [x0d; x0a; x0d]))
  /\ exists b', cutMessage threeLines echoLine anyHeader b
                = Ret (Some {| method := "GET"; uri := Buf.from "/echo";
                               version := "1.1";
                               req_headers := [Buf.from "Host: x"] |}) b'
                /\ view b' = Buf.from "next" /\ bufOk b'.
Proof.
  intros b.
  assert (H1 : bufOk b) by (unfold bufOk; vm_compute; split; discriminate).
  assert (H2 : view b = Buf.from "GET /echo HTTP/1.1" ++ CRLFCRLF ++ Buf.from "next")
    by reflexivity.
  assert (H3 : ~ occursIn CRLFCRLF (Buf.from "GET /echo HTTP/1.1" ++ [x0d; x0a; x0d]))
    by (apply indexOf_absent_iff; vm_compute; reflexivity).
  split; [split; [exact H1 | split; [exact H2 | exact H3]] |].
  apply (proj1 (cutMessage_first_header threeLines echoLine anyHeader b _ _ H1 H2 H3)).
  reflexivity.
Defined.

(** ** Selecting and pulling the request body *)

Lemma readerFromReq_by_method_eq (parseDec : string -> option Z) (req : HTTPReq)
      (w : World) :
  readerFromReq parseDec req w
  = if String.eqb (method req) "GET" || String.eqb (method req) "HEAD"
    then readerFromConnLength 0 w
    else Throw (HTTPError 501 "TODO") w.
Proof.
  unfold readerFromReq. rewrite !fieldGet_none.
  unfold bind at 1. unfold ret at 1.
  destruct (String.eqb (method req) "GET" || String.eqb (method req) "HEAD");
    reflexivity.
Qed.

(** X5.  [readerFromReq] answers by the method alone: [GET] and [HEAD] get
    a known-length reader of length 0, every other method makes it throw the
    [HTTPError] with status 501, "TODO".  No header is ever found, so
    [parseDec] is never consulted. *)
Theorem readerFromReq_by_method (parseDec : string -> option Z) (req : HTTPReq)
        (w : World) :
  readerFromReq parseDec req w
  = if String.eqb (method req) "GET" || String.eqb (method req) "HEAD"
    then readerFromConnLength 0 w
    else Throw (HTTPError 501 "TODO") w.
Proof. apply readerFromReq_by_method_eq. Qed.

(** X6.  A known-length reader that still expects bytes and finds the
    buffer empty reads the stream once: on end of stream it throws the plain
    error "Unexpected EOF from HTTP body", a transport error is thrown on
    as it is, and while the stream has nothing the pull stays pending.  Its
    count of bytes left is not changed in any of these cases. *)
Theorem read_connLength_stream_failure (r : BodyReader) (rem : Z) (w : World) :
  bufOk (buf w) -> length (buf w) = 0 -> rem <> 0 ->
  closureOf r w = Some (ConnLengthReader rem) ->
  (forall d w1, soRead w = Ret d w1 -> Buf.blen d = 0 ->
                read r w = Throw (Error "Unexpected EOF from HTTP body") w1
                /\ closureOf r w1 = Some (ConnLengthReader rem))
  /\ (forall e w1, soRead w = Throw e w1 ->
                   read r w = Throw e w1
                   /\ closureOf r w1 = Some (ConnLengthReader rem))
  /\ (forall w1, soRead w = Pending w1 ->
                 read r w = Pending w1
                 /\ closureOf r w1 = Some (ConnLengthReader rem)).
Proof.
  intros Hok Hlen Hrem Hcl. rewrite (read_connLength r rem w Hcl).
  assert (Hsame : forall o w1,
             soRead w = o ->
             match o with
             | Ret _ w' | Throw _ w' | Pending w' => w' = w1
             | OutOfFuel => False
             end ->
             buf w1 = buf w /\ closureOf r w1 = Some (ConnLengthReader rem)).
  { intros o w1 Ho. unfold soRead in Ho. unfold closureOf in *.
    destruct (err (conn w)); [subst o; intros <-; auto |].
    destruct (ended (conn w)); [subst o; intros <-; auto |].
    destruct (incoming (socket (conn w))) as [| [d | | e] rest];
      subst o; intros <-; auto. }
  apply Z.eqb_neq in Hrem.
  split; [| split].
  - intros d w1 Hread Hd. destruct (Hsame _ w1 Hread eq_refl) as [Hb Hc].
    split; [| exact Hc].
    apply blen_zero in Hd. subst d.
    unfold readConnLength, bind, gets. rewrite Hrem, Hlen.
    replace (0 =? 0) with true by reflexivity. rewrite Hread.
    unfold onBuf, zoom. rewrite Hb, (bufPush_nil _ Hok).
    rewrite <- Hb, setBuf_same. reflexivity.
  - intros e w1 Hread. split; [| apply (Hsame _ w1 Hread eq_refl)].
    unfold readConnLength, bind, gets. rewrite Hrem, Hlen.
    replace (0 =? 0) with true by reflexivity. rewrite Hread. reflexivity.
  - intros w1 Hread. split; [| apply (Hsame _ w1 Hread eq_refl)].
    unfold readConnLength, bind, gets. rewrite Hrem, Hlen.
    replace (0 =? 0) with true by reflexivity. rewrite Hread. reflexivity.
Qed.

Lemma read_connLength_stream_failure_witness :
  let w := setClosures [ConnLengthReader 5] (worldWith [OnEnd] emptyBuf) in
  let r := {| body_length := 5; read_cell := 0 |} in
  let w1 := withConn (fun c => {| socket := socket c; err := err c; ended := true |})
                     (setClosures [ConnLengthReader 5] (worldWith [] emptyBuf)) in
  (bufOk (buf w) /\ length (buf w) = 0 /\ 5 <> 0
   /\ closureOf r w = Some (ConnLengthReader 5)
   /\ soRead w = Ret [] w1 /\ Buf.blen [] = 0)
  /\ read r w = Throw (Error "Unexpected EOF from HTTP body") w1
  /\ closureOf r w1 = Some (ConnLengthReader 5).
Proof.
  intros w r w1.
  assert (H1 : bufOk (buf w)) by (unfold bufOk; vm_compute; split; discriminate).
  assert (H2 : length (buf w) = 0) by reflexivity.
  assert (H3 : 5 <> 0) by discriminate.
  assert (H4 : closureOf r w = Some (ConnLengthReader 5)) by reflexivity.
  assert (H5 : soRead w = Ret [] w1) by reflexivity.
  assert (H6 : Buf.blen [] = 0) by reflexivity.
  split; [repeat split; assumption || apply H1 |].
  exact (proj1 (read_connLength_stream_failure r 5 w H1 H2 H3 H4) [] w1 H5 H6).
Defined.

(** ** What a pull leaves alone *)

Lemma touchesOnly_refl (cell : nat) (w : World) : touchesOnly cell w w.
Proof. repeat split. Qed.

Lemma touchesOnly_trans (cell : nat) (w1 w2 w3 : World) :
  touchesOnly cell w1 w2 -> touchesOnly cell w2 w3 -> touchesOnly cell w1 w3.
Proof.
  intros (A1 & A2 & A3 & A4) (B1 & B2 & B3 & B4). repeat split; try congruence.
  intros i Hi. rewrite (B2 i Hi). apply A2. exact Hi.
Qed.

Lemma framed_ret {A} (cell : nat) (a : A) : framed cell (ret a).
Proof. intros w. apply touchesOnly_refl. Qed.

Lemma framed_throw {A} (cell : nat) (e : exn) : framed cell (@throw World A e).
Proof. intros w. apply touchesOnly_refl. Qed.

Lemma framed_gets {A} (cell : nat) (f : World -> A) : framed cell (gets f).
Proof. intros w. apply touchesOnly_refl. Qed.

Lemma framed_bind {A B} (cell : nat) (m : M World A) (k : A -> M World B) :
  framed cell m -> (forall a, framed cell (k a)) -> framed cell (bind m k).
Proof.
  intros Hm Hk w. specialize (Hm w). unfold bind.
  destruct (m w) as [a w' | e w' | w' |]; try assumption.
  specialize (Hk a w').
  destruct (k a w') as [b w'' | e w'' | w'' |]; try assumption;
    eapply touchesOnly_trans; eassumption.
Qed.

Lemma framed_soRead (cell : nat) : framed cell soRead.
Proof.
  intros w. unfold soRead. destruct (err (conn w)); [apply touchesOnly_refl |].
  destruct (ended (conn w)); [apply touchesOnly_refl |].
  destruct (incoming (socket (conn w))) as [| [d | | e] rest]; repeat split.
Qed.

Lemma framed_bufPush (cell : nat) (d : Buffer) : framed cell (onBuf (bufPush d)).
Proof.
  intros w. unfold onBuf, zoom.
  cbv [bufPush bind gets id]. cbv beta iota.
  destruct (length (buf w) <? _).
  - unfold copyInto at 1. destruct (Buf.copy _ _ 0); [| repeat split].
    cbv [ret modify]. cbn [data length]. unfold copyInto.
    destruct (Buf.copy d _ _); repeat split.
  - cbv [ret]. unfold copyInto. destruct (Buf.copy d _ _); repeat split.
Qed.

Lemma framed_bufPop (cell : nat) (n : Z) : framed cell (onBuf (bufPop n)).
Proof. intros w. repeat split. Qed.

Lemma nth_error_listSet_other {A} (l : list A) (i j : nat) (x : A) :
  i <> j -> nth_error (listSet l j x) i = nth_error l i.
Proof.
  revert i j. induction l as [| y l IH]; intros i j Hij; [destruct j; reflexivity |].
  destruct j as [| j], i as [| i]; simpl; try reflexivity; try congruence.
  apply IH. congruence.
Qed.

Lemma length_listSet {A} (l : list A) (j : nat) (x : A) :
  List.length (listSet l j x) = List.length l.
Proof.
  revert j. induction l as [| y l IH]; intros [| j]; simpl; try reflexivity.
  f_equal. apply IH.
Qed.

Lemma framed_setClosure (cell : nat) (c : ReaderClosure) :
  framed cell (setClosure cell c).
Proof.
  intros w. unfold setClosure, modify. repeat split; cbn [closures setClosures].
  - apply length_listSet.
  - intros i Hi. apply nth_error_listSet_other. exact Hi.
Qed.

(** X7.  A pull never runs out of the model's fuel, and whatever its
    outcome it leaves every other reader's closure, the bytes written to the
    socket and the socket's destroyed flag as they were. *)
Theorem read_touches_only_its_closure (r : BodyReader) (w : World) :
  match read r w with
  | Ret _ w' | Throw _ w' | Pending w' => touchesOnly (read_cell r) w w'
  | OutOfFuel => False
  end.
Proof.
  revert w. change (framed (read_cell r) (read r)).
  unfold read. apply framed_bind; [apply framed_gets | intros [[rem | d done] |]].
  - unfold readConnLength. destruct (rem =? 0); [apply framed_ret |].
    apply framed_bind; [apply framed_gets | intros b].
    apply framed_bind.
    + destruct (length b =? 0); [| apply framed_ret].
      apply framed_bind; [apply framed_soRead | intros d].
      apply framed_bind; [apply framed_bufPush | intros _].
      destruct (Buf.blen d =? 0); [apply framed_throw | apply framed_ret].
    + intros _. apply framed_bind; [apply framed_gets | intros b0].
      apply framed_bind; [apply framed_setClosure | intros _].
      apply framed_bind; [apply framed_bufPop | intros _; apply framed_ret].
  - unfold readMemory. destruct done; [apply framed_ret |].
    apply framed_bind; [apply framed_setClosure | intros _; apply framed_ret].
  - apply framed_throw.
Qed.

(** ** Draining the request body *)

Lemma drain_unfold (fuel : nat) (r : BodyReader) :
  drain (S fuel) r
  = (d <- read r ;; if 0 <? Buf.blen d then drain fuel r else ret tt).
Proof. reflexivity. Qed.

Lemma drain_connLength (r : BodyReader) (fuel : nat) :
  forall (rem : Z) (w w' : World),
    bufOk (buf w) -> 0 <= rem ->
    closureOf r w = Some (ConnLengthReader rem) ->
    drain fuel r w = Ret tt w' ->
    closureOf r w' = Some (ConnLengthReader 0)
    /\ bufOk (buf w')
    /\ exists body, Buf.blen body = rem /\ body ++ unread w' = unread w.
Proof.
  induction fuel as [| fuel IH]; intros rem w w' Hok Hrem Hcl; [discriminate |].
  rewrite drain_unfold. unfold bind at 1. rewrite (read_connLength r rem w Hcl).
  destruct (readConnLength (read_cell r) rem w) as [d w1 | | |] eqn:Hr;
    try discriminate.
  destruct (Z.eq_dec rem 0) as [-> | Hnz].
  - rewrite readConnLength_exhausted in Hr. inversion Hr; subst; clear Hr.
    simpl. unfold ret. intros H. inversion H; subst; clear H.
    split; [exact Hcl | split; [exact Hok |]]. exists []. split; reflexivity.
  - assert (Hpos : 0 < rem) by lia.
    destruct (readConnLength_step _ _ _ _ _ Hok Hpos Hcl Hr) as (S1 & S2 & S3 & S4).
    destruct (0 <? Buf.blen d) eqn:E; [| apply Z.ltb_ge in E; lia].
    intros Hd.
    assert (Hrem' : 0 <= rem - Buf.blen d) by lia.
    destruct (IH _ _ _ S3 Hrem' S2 Hd) as (I1 & I2 & body & Hb & Hu).
    split; [exact I1 | split; [exact I2 |]].
    exists (d ++ body). rewrite blen_app. split; [lia |].
    rewrite <- S4, <- Hu, app_assoc. reflexivity.
Qed.

Lemma drain_done (r : BodyReader) (fuel : nat) (w : World) :
  closureOf r w = Some (ConnLengthReader 0) -> drain (S fuel) r w = Ret tt w.
Proof.
  intros Hcl. rewrite drain_unfold. unfold bind.
  rewrite (read_connLength r 0 w Hcl), readConnLength_exhausted. reflexivity.
Qed.

Lemma drain_step (r : BodyReader) (fuel : nat) (w w1 : World) (d : Buffer) :
  read r w = Ret d w1 -> 0 < Buf.blen d -> drain (S fuel) r w = drain fuel r w1.
Proof.
  intros Hr Hd. rewrite drain_unfold. unfold bind. rewrite Hr.
  apply Z.ltb_lt in Hd. rewrite Hd. reflexivity.
Qed.

Lemma drain_complete_empty (r : BodyReader) (ds : list Buffer) :
  forall (rem : Z) (w : World),
    bufOk (buf w) -> length (buf w) = 0 ->
    delivers w ds -> Forall (fun d => d <> []) ds ->
    0 <= rem <= Buf.blen (List.concat ds) ->
    closureOf r w = Some (ConnLengthReader rem) ->
    exists fuel w', drain fuel r w = Ret tt w'.
Proof.
  induction ds as [| d0 ds IH]; intros rem w Hok Hlen Hdel Hne Hrem Hcl.
  - simpl in Hrem. replace (Buf.blen []) with 0 in Hrem by reflexivity.
    assert (rem = 0) by lia. subst rem.
    exists 1%nat, w. apply drain_done. exact Hcl.
  - destruct (Z.eq_dec rem 0) as [-> | Hnz].
    { exists 1%nat, w. apply drain_done. exact Hcl. }
    assert (Hpos : 0 < rem) by lia.
    inversion Hne as [| ? ? Hd0 Hne']; subst.
    destruct (read_refill r rem w d0 ds Hok Hlen Hpos Hcl Hdel Hd0)
      as (d & w1 & Hr & Hdel1 & Hl1 & Hd).
    pose proof Hr as Hr'. rewrite (read_connLength r rem w Hcl) in Hr'.
    destruct (readConnLength_step _ _ _ _ _ Hok Hpos Hcl Hr') as (S1 & S2 & S3 & _).
    simpl in Hrem. rewrite blen_app in Hrem.
    destruct (Z.le_gt_cases rem (Buf.blen d0)) as [Hle | Hgt].
    + exists 2%nat, w1. rewrite (drain_step r 1 w w1 d Hr) by lia.
      apply drain_done. unfold closureOf. rewrite S2. do 2 f_equal. lia.
    + assert (Hrem1 : 0 <= rem - Buf.blen d <= Buf.blen (List.concat ds)) by lia.
      assert (Hl0 : length (buf w1) = 0) by lia.
      destruct (IH _ w1 S3 Hl0 Hdel1 Hne' Hrem1 S2) as (fuel & w2 & Hp).
      exists (S fuel), w2. rewrite (drain_step r fuel w w1 d Hr) by lia. exact Hp.
Qed.

(** X8.  Draining a known-length reader that still expects [rem] bytes:
    whenever the loop ends, the reader expects nothing more and exactly
    [rem] bytes were taken from the front of what was unread, so the
    connection stands at the first byte after the body; and the loop does
    end whenever the buffer and the chunks the socket delivers next hold
    [rem] bytes. *)
Theorem drain_positions_stream (r : BodyReader) (rem : Z) (w : World) :
  bufOk (buf w) -> 0 <= rem ->
  closureOf r w = Some (ConnLengthReader rem) ->
  (forall fuel w',
      drain fuel r w = Ret tt w' ->
      closureOf r w' = Some (ConnLengthReader 0)
      /\ exists body, Buf.blen body = rem /\ body ++ unread w' = unread w)
  /\ (forall ds,
         delivers w ds -> Forall (fun d => d <> []) ds ->
         rem <= length (buf w) + Buf.blen (List.concat ds) ->
         exists fuel w', drain fuel r w = Ret tt w').
Proof.
  intros Hok Hrem Hcl. split.
  - intros fuel w' Hd.
    destruct (drain_connLength r fuel rem w w' Hok Hrem Hcl Hd) as (D1 & _ & D3).
    split; assumption.
  - intros ds Hdel Hne Hle.
    destruct (Z.eq_dec rem 0) as [-> | Hnz].
    { exists 1%nat, w. apply drain_done. exact Hcl. }
    assert (Hpos : 0 < rem) by lia.
    destruct (Z.eq_dec (length (buf w)) 0) as [Hl0 | Hl0].
    { apply (drain_complete_empty r ds rem w); try assumption. lia. }
    assert (Hlen : 0 < length (buf w)) by (destruct Hok; lia).
    destruct (read_buffered r rem w Hok Hlen Hpos Hcl) as (d & w1 & Hr & Hc & Hl1 & Hd).
    pose proof Hr as Hr'. rewrite (read_connLength r rem w Hcl) in Hr'.
    destruct (readConnLength_step _ _ _ _ _ Hok Hpos Hcl Hr') as (_ & S2 & S3 & _).
    destruct (Z.le_gt_cases rem (length (buf w))) as [Hle' | Hgt].
    + exists 2%nat, w1. rewrite (drain_step r 1 w w1 d Hr) by lia.
      apply drain_done. unfold closureOf. rewrite S2. do 2 f_equal. lia.
    + assert (Hrem1 : 0 <= rem - Buf.blen d <= Buf.blen (List.concat ds)) by lia.
      assert (Hl1' : length (buf w1) = 0) by lia.
      destruct (drain_complete_empty r ds _ w1 S3 Hl1' (delivers_conn _ _ _ Hc Hdel)
                                     Hne Hrem1 S2) as (fuel & w2 & Hp).
      exists (S fuel), w2. rewrite (drain_step r fuel w w1 d Hr) by lia. exact Hp.
Qed.

Lemma drain_positions_stream_witness :
  let w := setClosures [ConnLengthReader 5]
             (worldWith [OnData (Buf.from "defgh")] (bufferOf (Buf.from "abc"))) in
  let r := {| body_length := 5; read_cell := 0 |} in
  (bufOk (buf w) /\ 0 <= 5 /\ closureOf r w = Some (ConnLengthReader 5))
  /\ (forall fuel w',
         drain fuel r w = Ret tt w' ->
         closureOf r w' = Some (ConnLengthReader 0)
         /\ exists body, Buf.blen body = 5 /\ body ++ unread w' = unread w)
  /\ (forall ds,
         delivers w ds -> Forall (fun d => d <> []) ds ->
         5 <= length (buf w) + Buf.blen (List.concat ds) ->
         exists fuel w', drain fuel r w = Ret tt w').
Proof.
  intros w r.
  assert (H1 : bufOk (buf w)) by (unfold bufOk; vm_compute; split; discriminate).
  assert (H2 : 0 <= 5) by lia.
  assert (H3 : closureOf r w = Some (ConnLengthReader 5)) by reflexivity.
  split; [split; [exact H1 | split; [exact H2 | exact H3]] |].
  exact (drain_positions_stream r 5 w H1 H2 H3).
Defined.

Example drain_abc_de :
  let w := setClosures [ConnLengthReader 5]
             (worldWith [OnData (Buf.from "defgh")] (bufferOf (Buf.from "abc"))) in
  exists w', drain 3 {| body_length := 5; read_cell := 0 |} w = Ret tt w'
             /\ view (buf w') = Buf.from "fgh".
Proof. eexists. split; vm_compute; reflexivity. Qed.

(** ** Writing a response *)

Lemma read_empty_body (r : BodyReader) (w : World) :
  closureOf r w = Some (ConnLengthReader 0)
  \/ (exists done, closureOf r w = Some (MemoryReader [] done)) ->
  exists w', read r w = Ret [] w'
             /\ conn w' = conn w /\ buf w' = buf w.
Proof.
  intros [H | [done H]]; unfold closureOf in H; unfold read, bind, gets; rewrite H.
  - exists w. repeat split.
  - destruct done; eexists; repeat split.
Qed.

(** X9.  For a response whose body has length 0 (an exhausted known-length
    reader, or the in-memory reader of no bytes), [writeHTTPResp] writes one
    chunk and no more: the encoding of the response with one header added
    after the caller's, the text of the source's single-quoted string.  If
    the transport has failed, it throws the transport's error and writes
    nothing. *)
Theorem writeHTTPResp_empty_body (encodeHTTPResp : HTTPRes -> Buffer) (fuel : nat)
        (resp : HTTPRes) (w : World) :
  body_length (body resp) = 0 ->
  (closureOf (body resp) w = Some (ConnLengthReader 0)
   \/ (exists done, closureOf (body resp) w = Some (MemoryReader [] done))) ->
  (writeErr (socket (conn w)) = None ->
   exists w', writeHTTPResp encodeHTTPResp (S fuel) resp w = Ret tt w'
              /\ written (socket (conn w'))
                 = written (socket (conn w)) ++ [encodeHTTPResp (withLengthHeader resp)]
              /\ buf w' = buf w)
  /\ (forall e, writeErr (socket (conn w)) = Some e ->
                writeHTTPResp encodeHTTPResp fuel resp w = Throw e w).
Proof.
  intros Hlen Hcl. unfold writeHTTPResp. rewrite Hlen.
  replace (negb (0 =? 0)) with false by reflexivity.
  fold (withLengthHeader resp). split.
  - intros Hw. unfold bind at 1. unfold soWrite at 1. rewrite Hw.
    set (w1 := withSocket _ w).
    destruct (read_empty_body (body resp) w1 Hcl) as (w' & Hr & Hc & Hb).
    exists w'. simpl writeBody. unfold bind at 1. rewrite Hr.
    split; [reflexivity |]. rewrite Hc, Hb. split; reflexivity.
  - intros e Hw. unfold bind at 1. unfold soWrite at 1. rewrite Hw. reflexivity.
Qed.

Lemma writeHTTPResp_empty_body_witness :
  let w := setClosures [MemoryReader [] false] (worldWith [] emptyBuf) in
  let resp := {| code := JNum 200; headers := [Buf.from "Server: x"];
                 body := {| body_length := 0; read_cell := 0 |} |} in
  (body_length (body resp) = 0
   /\ (closureOf (body resp) w = Some (ConnLengthReader 0)
       \/ (exists done, closureOf (body resp) w = Some (MemoryReader [] done)))
   /\ writeErr (socket (conn w)) = None)
  /\ exists w', writeHTTPResp headersOnly 1 resp w = Ret tt w'
                /\ written (socket (conn w'))
                   = written (socket (conn w)) ++ [headersOnly (withLengthHeader resp)]
                /\ buf w' = buf w.
Proof.
  intros w resp.
  assert (H1 : body_length (body resp) = 0) by reflexivity.
  assert (H2 : closureOf (body resp) w = Some (ConnLengthReader 0)
               \/ (exists done, closureOf (body resp) w = Some (MemoryReader [] done)))
    by (right; exists false; reflexivity).
  assert (H3 : writeErr (socket (conn w)) = None) by reflexivity.
  split; [split; [exact H1 | split; [exact H2 | exact H3]] |].
  exact (proj1 (writeHTTPResp_empty_body headersOnly 0 resp w H1 H2) H3).
Defined.

(** ** The driver on a framed request *)

Lemma read_exhausted (r : BodyReader) (w : World) :
  closureOf r w = Some (ConnLengthReader 0) -> read r w = Ret [] w.
Proof.
  intros H. rewrite (read_connLength r 0 w H). apply readConnLength_exhausted.
Qed.

Section Driver.
Variable splitLines : Buffer -> list Buffer.
Variable parseRequestLine : option Buffer -> exn + (string * Buffer * string).
Variable validateHeader : Buffer -> bool.
Variable parseDec : string -> option Z.
Variable encodeHTTPResp : HTTPRes -> Buffer.

Let serve := serveLoop splitLines parseRequestLine validateHeader parseDec encodeHTTPResp.
Let cut := cutMessage splitLines parseRequestLine validateHeader.

Lemma serveLoop_request (fuel : nat) (w : World) (msg : HTTPReq) (b1 : DynBuf) :
  cut (buf w) = Ret (Some msg) b1 ->
  serve (S fuel) w
  = (reqBody <- readerFromReq parseDec msg ;;
     res <- handleReq msg reqBody ;;
     writeHTTPResp encodeHTTPResp fuel res ;;
     if String.eqb (version msg) "1.0" then ret tt
     else drain fuel reqBody ;; serve fuel) (setBuf b1 w).
Proof.
  intros H. unfold serve. simpl serveLoop. unfold bind at 1. unfold onBuf at 1, zoom.
  fold cut. rewrite H. reflexivity.
Qed.

Lemma serveLoop_cut_throws (fuel : nat) (w : World) (e : exn) (b1 : DynBuf) :
  cut (buf w) = Throw e b1 -> serve (S fuel) w = Throw e (setBuf b1 w).
Proof.
  intros H. unfold serve. simpl serveLoop. unfold bind at 1. unfold onBuf at 1, zoom.
  fold cut. rewrite H. reflexivity.
Qed.

Lemma serveLoop_more (fuel : nat) (w w1 : World) (d : Buffer) (b' : DynBuf) :
  cut (buf w) = Ret None (buf w) ->
  soRead w = Ret d w1 ->
  bufPush d (buf w) = Ret tt b' ->
  Buf.blen d <> 0 ->
  serve (S fuel) w = serve fuel (setBuf b' w1).
Proof.
  intros Hcut Hread Hpush Hd. apply Z.eqb_neq in Hd.
  destruct (soRead_keeps_buf _ _ _ Hread) as [Hb _].
  unfold serve. simpl serveLoop. unfold bind at 1. unfold onBuf at 1, zoom.
  fold cut. rewrite Hcut, setBuf_same. unfold bind at 1. rewrite Hread.
  unfold bind at 1. unfold onBuf at 1, zoom. rewrite Hb, Hpush.
  unfold bind at 1. unfold gets at 1. rewrite Hd. reflexivity.
Qed.

(** X10.  A framed request whose method is neither [GET] nor [HEAD] ends
    the loop of [serveClient] with the [HTTPError] of status 501, "TODO";
    nothing is written and only the header block has left the buffer. *)
Theorem serveLoop_other_method (fuel : nat) (w : World) (msg : HTTPReq) (b1 : DynBuf) :
  cutMessage splitLines parseRequestLine validateHeader (buf w) = Ret (Some msg) b1 ->
  String.eqb (method msg) "GET" || String.eqb (method msg) "HEAD" = false ->
  serveLoop splitLines parseRequestLine validateHeader parseDec encodeHTTPResp
            (S fuel) w
  = Throw (HTTPError 501 "TODO") (setBuf b1 w).
Proof.
  intros Hcut Hm. fold serve. rewrite (serveLoop_request fuel w msg b1 Hcut).
  unfold bind at 1. rewrite readerFromReq_by_method_eq, Hm. reflexivity.
Qed.

(** X11.  A framed [GET] or [HEAD] request for a target other than
    [/echo] ends the loop with the plain error "TODO: chunked encoding":
    the handler answers with the 13 bytes "hello world.\n" in memory, and
    the writer rejects that body before writing anything. *)
Theorem serveLoop_default_route (fuel : nat) (w : World) (msg : HTTPReq) (b1 : DynBuf) :
  cutMessage splitLines parseRequestLine validateHeader (buf w) = Ret (Some msg) b1 ->
  String.eqb (method msg) "GET" || String.eqb (method msg) "HEAD" = true ->
  String.eqb (Buf.toString (uri msg)) "/echo" = false ->
  exists w',
    serveLoop splitLines parseRequestLine validateHeader parseDec encodeHTTPResp
              (S fuel) w
    = Throw (Error "TODO: chunked encoding") w'
    /\ conn w' = conn w /\ buf w' = b1
    /\ closures w'
       = closures w ++ [ConnLengthReader 0;
                        MemoryReader (Buf.from ("hello world." ++ LF)) false].
Proof.
  intros Hcut Hm Huri. fold serve. rewrite (serveLoop_request fuel w msg b1 Hcut).
  unfold bind at 1. rewrite readerFromReq_by_method_eq, Hm.
  unfold readerFromConnLength. unfold bind at 1. unfold handleReq.
  rewrite Huri. unfold bind at 1. unfold readerFromMemory at 1. unfold ret at 1.
  unfold bind at 1.
  rewrite writeHTTPResp_throws by (cbn [body body_length]; discriminate).
  eexists. split; [reflexivity |]. cbn [conn buf closures setBuf setClosures].
  rewrite <- app_assoc. repeat split.
Qed.

(** X12.  A framed [GET] or [HEAD] request for [/echo] on a transport that
    accepts writes: one chunk is written, the encoding of the status 200
    with the [Server] header and the added length header, and no body.  With
    version [1.0] the loop returns; with any other version it goes on to the
    next request, with the rest of the buffer untouched. *)
Theorem serveLoop_echo (fuel : nat) (w : World) (msg : HTTPReq) (b1 : DynBuf) :
  cutMessage splitLines parseRequestLine validateHeader (buf w) = Ret (Some msg) b1 ->
  String.eqb (method msg) "GET" || String.eqb (method msg) "HEAD" = true ->
  String.eqb (Buf.toString (uri msg)) "/echo" = true ->
  writeErr (socket (conn w)) = None ->
  let reqBody := {| body_length := 0; read_cell := List.length (closures w) |} in
  let resp := {| code := JNum 200;
                 headers := [Buf.from "Server: my_first_http_server"];
                 body := reqBody |} in
  let w' := afterWrite (encodeHTTPResp (withLengthHeader resp))
                       (setClosures (closures w ++ [ConnLengthReader 0])
                                    (setBuf b1 w)) in
  serveLoop splitLines parseRequestLine validateHeader parseDec encodeHTTPResp
            (S (S fuel)) w
  = if String.eqb (version msg) "1.0" then Ret tt w'
    else serveLoop splitLines parseRequestLine validateHeader parseDec encodeHTTPResp
                   (S fuel) w'.
Proof.
  intros Hcut Hm Huri Hw reqBody resp w'. fold serve.
  rewrite (serveLoop_request (S fuel) w msg b1 Hcut).
  unfold bind at 1. rewrite readerFromReq_by_method_eq, Hm.
  unfold readerFromConnLength. unfold bind at 1. unfold handleReq.
  rewrite Huri. unfold bind at 1. unfold ret at 1 2.
  cbn [closures setBuf]. fold reqBody. fold resp.
  set (w1 := setClosures (closures w ++ [ConnLengthReader 0]) (setBuf b1 w)).
  assert (Hcl : closureOf reqBody w1 = Some (ConnLengthReader 0)).
  { unfold closureOf, reqBody, w1. cbn [closures setClosures setBuf read_cell].
    rewrite nth_error_app2 by apply Nat.le_refl. rewrite Nat.sub_diag. reflexivity. }
  assert (Hcl' : closureOf reqBody w' = Some (ConnLengthReader 0)) by exact Hcl.
  assert (Hwrite : writeHTTPResp encodeHTTPResp (S fuel) resp w1 = Ret tt w').
  { unfold writeHTTPResp.
    change (body_length (body resp)) with 0.
    change (negb (0 =? 0)) with false. cbv iota.
    unfold bind at 1. unfold soWrite at 1.
    replace (writeErr (socket (conn w1))) with (@None exn) by (symmetry; exact Hw).
    match goal with
    | |- writeBody _ _ ?x = _ => change x with w'
    end.
    change (body resp) with reqBody. simpl writeBody. unfold bind at 1.
    rewrite (read_exhausted reqBody w' Hcl'). reflexivity. }
  unfold bind at 1. rewrite Hwrite.
  destruct (String.eqb (version msg) "1.0"); [reflexivity |].
  unfold bind at 1.
  rewrite (drain_done reqBody fuel w' Hcl'). reflexivity.
Qed.

(** X13.  A chunk that brings the buffer to 8192 bytes or more without
    completing a header block ends the loop with the [HTTPError] of status
    413, after that one read: the chunk is in the buffer and nothing else
    has changed. *)
Theorem serveLoop_header_too_large (fuel : nat) (w w1 : World) (d : Buffer) :
  bufOk (buf w) ->
  length (buf w) < 8192 ->
  soRead w = Ret d w1 ->
  d <> [] ->
  ~ occursIn CRLFCRLF (view (buf w) ++ d) ->
  8192 <= length (buf w) + Buf.blen d ->
  exists b',
    bufPush d (buf w) = Ret tt b'
    /\ serveLoop splitLines parseRequestLine validateHeader parseDec encodeHTTPResp
                 (S (S fuel)) w
       = Throw (HTTPError 413 "header is too large") (setBuf b' w1).
Proof.
  intros Hok Hlt Hread Hne Hno Hge. fold serve.
  destruct (bufPush_ok d (buf w) Hok) as (b' & Hpush & Hv & Hl & Hok').
  exists b'. split; [exact Hpush |].
  assert (Hno0 : ~ occursIn CRLFCRLF (view (buf w))).
  { intros (pre & post & E). apply Hno. exists pre, (post ++ d).
    rewrite E, <- !app_assoc. reflexivity. }
  assert (Hcut0 : cut (buf w) = Ret None (buf w)).
  { apply indexOf_absent_iff in Hno0. unfold view in Hno0.
    unfold cut, cutMessage, bind, gets, id. cbv beta iota. rewrite Hno0.
    replace (-1 <? 0) with true by reflexivity.
    destruct (kMaxHeaderLen <=? length (buf w)) eqn:E; [| reflexivity].
    apply Z.leb_le in E. unfold kMaxHeaderLen in E. lia. }
  assert (Hcut1 : cut b' = Throw (HTTPError 413 "header is too large") b').
  { rewrite <- Hv in Hno. apply indexOf_absent_iff in Hno. unfold view in Hno.
    unfold cut, cutMessage, bind, gets, id. cbv beta iota. rewrite Hno.
    replace (-1 <? 0) with true by reflexivity.
    destruct (kMaxHeaderLen <=? length b') eqn:E; [reflexivity |].
    apply Z.leb_gt in E. unfold kMaxHeaderLen in E. lia. }
  assert (Hd : Buf.blen d <> 0).
  { destruct d; [congruence | unfold Buf.blen; simpl; lia]. }
  rewrite (serveLoop_more (S fuel) w w1 d b' Hcut0 Hread Hpush Hd).
  rewrite (serveLoop_cut_throws fuel (setBuf b' w1) _ b' Hcut1). reflexivity.
Qed.
End Driver.

(** ** The connection boundary and the stream *)

Section Boundary.
Variable splitLines : Buffer -> list Buffer.
Variable parseRequestLine : option Buffer -> exn + (string * Buffer * string).
Variable validateHeader : Buffer -> bool.
Variable parseDec : string -> option Z.
Variable encodeHTTPResp : HTTPRes -> Buffer.

Lemma onException_returns (fuel : nat) (exc : exn) (w : World) :
  exists w', onException encodeHTTPResp fuel exc w = Ret tt w'
             /\ conn w' = conn w.
Proof.
  destruct exc as [sc msg | msg | msg].
  - apply onException_writes_nothing.
  - exists w. split; reflexivity.
  - exists w. split; reflexivity.
Qed.

(** X14.  [newConn] never throws: every exception of [serveClient] ends in
    its [catch] block, which itself completes.  Whenever [newConn] returns,
    the socket has been destroyed. *)
Theorem newConn_never_throws (fuel : nat) (s : Socket) :
  match newConn splitLines parseRequestLine validateHeader parseDec encodeHTTPResp
                fuel s with
  | Ret _ w => destroyed (socket (conn w)) = true
  | Throw _ _ => False
  | Pending _ | OutOfFuel => True
  end.
Proof.
  unfold newConn, tryFinally, tryCatch.
  set (w0 := {| conn := soInit s; buf := emptyBuf; closures := [] |}).
  destruct (serveClient _ _ _ _ _ fuel w0) as [a w | e w | w |]; try exact I.
  - reflexivity.
  - destruct (onException_returns fuel e w) as (w' & -> & _). reflexivity.
Qed.
End Boundary.

(** X15.  A failed read is latched: once [soRead] has thrown an error,
    every later [soRead] throws the same error and changes nothing.  So is
    the end of the stream: once the connection is marked ended, every later
    [soRead] returns the empty buffer and changes nothing. *)
Theorem soRead_latches (w w' : World) :
  (forall e, soRead w = Throw e w' -> soRead w' = Throw e w')
  /\ (forall d, soRead w = Ret d w' -> ended (conn w') = true ->
                soRead w' = Ret [] w').
Proof.
  split.
  - intros e. unfold soRead at 1.
    destruct (err (conn w)) as [e0 |] eqn:He.
    + intros H. inversion H; subst. unfold soRead. rewrite He. reflexivity.
    + destruct (ended (conn w)); [discriminate |].
      destruct (incoming (socket (conn w))) as [| [d | | e1] rest]; try discriminate.
      intros H. inversion H; subst. reflexivity.
  - intros d. unfold soRead at 1.
    destruct (err (conn w)) as [e0 |] eqn:He; [discriminate |].
    destruct (ended (conn w)) eqn:Hen.
    + intros H _. inversion H; subst. unfold soRead. rewrite He, Hen. reflexivity.
    + destruct (incoming (socket (conn w))) as [| [d1 | | e1] rest]; try discriminate.
      * intros H Hended. inversion H; subst. cbn in Hended. congruence.
      * intros H _. inversion H; subst. unfold soRead. cbn. rewrite He. reflexivity.
Qed.

(** ** Runs of the driver on concrete requests *)

Lemma serveLoop_other_method_witness :
  let w := worldWith [] (bufferOf (Buf.from "POST /echo HTTP/1.1" ++ CRLFCRLF)) in
  let msg := {| method := "POST"; uri := Buf.from "/echo"; version := "1.1";
                req_headers := [Buf.from "Host: x"] |} in
  let b1 := bufAfter (cutMessage threeLines postLine anyHeader (buf w)) in
  (cutMessage threeLines postLine anyHeader (buf w) = Ret (Some msg) b1
   /\ String.eqb (method msg) "GET" || String.eqb (method msg) "HEAD" = false)
  /\ serveLoop threeLines postLine anyHeader noNumber headersOnly 1 w
     = Throw (HTTPError 501 "TODO") (setBuf b1 w).
Proof.
  intros w msg b1.
  assert (H1 : cutMessage threeLines postLine anyHeader (buf w) = Ret (Some msg) b1)
    by reflexivity.
  assert (H2 : String.eqb (method msg) "GET" || String.eqb (method msg) "HEAD" = false)
    by reflexivity.
  split; [split; [exact H1 | exact H2] |].
  exact (serveLoop_other_method threeLines postLine anyHeader noNumber headersOnly
           0 w msg b1 H1 H2).
Defined.

Lemma serveLoop_default_route_witness :
  let w := worldWith [] (bufferOf (Buf.from "GET / HTTP/1.1" ++ CRLFCRLF)) in
  let msg := {| method := "GET"; uri := Buf.from "/"; version := "1.1";
                req_headers := [Buf.from "Host: x"] |} in
  let b1 := bufAfter (cutMessage threeLines rootLine anyHeader (buf w)) in
  (cutMessage threeLines rootLine anyHeader (buf w) = Ret (Some msg) b1
   /\ String.eqb (method msg) "GET" || String.eqb (method msg) "HEAD" = true
   /\ String.eqb (Buf.toString (uri msg)) "/echo" = false)
  /\ exists w',
      serveLoop threeLines rootLine anyHeader noNumber headersOnly 1 w
      = Throw (Error "TODO: chunked encoding") w'
      /\ conn w' = conn w /\ buf w' = b1
      /\ closures w'
         = closures w ++ [ConnLengthReader 0;
                          MemoryReader (Buf.from ("hello world." ++ LF)) false].
Proof.
  intros w msg b1.
  assert (H1 : cutMessage threeLines rootLine anyHeader (buf w) = Ret (Some msg) b1)
    by reflexivity.
  assert (H2 : String.eqb (method msg) "GET" || String.eqb (method msg) "HEAD" = true)
    by reflexivity.
  assert (H3 : String.eqb (Buf.toString (uri msg)) "/echo" = false) by reflexivity.
  split; [split; [exact H1 | split; [exact H2 | exact H3]] |].
  exact (serveLoop_default_route threeLines rootLine anyHeader noNumber headersOnly
           0 w msg b1 H1 H2 H3).
Defined.

Lemma serveLoop_echo_witness :
  let w := worldWith [OnEnd] (bufferOf (Buf.from "GET /echo HTTP/1.1" ++ CRLFCRLF)) in
  let msg := {| method := "GET"; uri := Buf.from "/echo"; version := "1.1";
                req_headers := [Buf.from "Host: x"] |} in
  let b1 := bufAfter (cutMessage threeLines echoLine anyHeader (buf w)) in
  let reqBody := {| body_length := 0; read_cell := 0 |} in
  let resp := {| code := JNum 200;
                 headers := [Buf.from "Server: my_first_http_server"];
                 body := reqBody |} in
  let w' := afterWrite (headersOnly (withLengthHeader resp))
                       (setClosures [ConnLengthReader 0] (setBuf b1 w)) in
  (cutMessage threeLines echoLine anyHeader (buf w) = Ret (Some msg) b1
   /\ String.eqb (method msg) "GET" || String.eqb (method msg) "HEAD" = true
   /\ String.eqb (Buf.toString (uri msg)) "/echo" = true
   /\ writeErr (socket (conn w)) = None)
  /\ serveLoop threeLines echoLine anyHeader noNumber headersOnly 2 w
     = if String.eqb (version msg) "1.0" then Ret tt w'
       else serveLoop threeLines echoLine anyHeader noNumber headersOnly 1 w'.
Proof.
  intros w msg b1 reqBody resp w'.
  assert (H1 : cutMessage threeLines echoLine anyHeader (buf w) = Ret (Some msg) b1)
    by reflexivity.
  assert (H2 : String.eqb (method msg) "GET" || String.eqb (method msg) "HEAD" = true)
    by reflexivity.
  assert (H3 : String.eqb (Buf.toString (uri msg)) "/echo" = true) by reflexivity.
  assert (H4 : writeErr (socket (conn w)) = None) by reflexivity.
  split; [split; [exact H1 | split; [exact H2 | split; [exact H3 | exact H4]]] |].
  exact (serveLoop_echo threeLines echoLine anyHeader noNumber headersOnly
           0 w msg b1 H1 H2 H3 H4).
Defined.

Lemma serveLoop_header_too_large_witness :
  let d := repeat x41 (Z.to_nat 8192) in
  let w := worldWith [OnData d; OnEnd] emptyBuf in
  let w1 := worldWith [OnEnd] emptyBuf in
  (bufOk (buf w) /\ length (buf w) < 8192 /\ soRead w = Ret d w1 /\ d <> []
   /\ ~ occursIn CRLFCRLF (view (buf w) ++ d)
   /\ 8192 <= length (buf w) + Buf.blen d)
  /\ exists b',
      bufPush d (buf w) = Ret tt b'
      /\ serveLoop noLines rejectLine anyHeader noNumber headersOnly 2 w
         = Throw (HTTPError 413 "header is too large") (setBuf b' w1).
Proof.
  intros d w w1.
  assert (H1 : bufOk (buf w)) by (unfold bufOk; vm_compute; split; discriminate).
  assert (H2 : length (buf w) < 8192) by reflexivity.
  assert (H3 : soRead w = Ret d w1) by reflexivity.
  assert (H4 : d <> []) by (vm_compute; discriminate).
  assert (H5 : ~ occursIn CRLFCRLF (view (buf w) ++ d))
    by (apply indexOf_absent_iff; vm_compute; reflexivity).
  assert (H6 : 8192 <= length (buf w) + Buf.blen d) by (vm_compute; discriminate).
  split; [split; [exact H1 | split; [exact H2 | split; [exact H3 | split;
          [exact H4 | split; [exact H5 | exact H6]]]]] |].
  exact (serveLoop_header_too_large noLines rejectLine anyHeader noNumber headersOnly
           0 w w1 d H1 H2 H3 H4 H5 H6).
Defined.

Lemma soRead_latches_witness :
  let w := worldWith [OnError (Error "ECONNRESET"); OnData (Buf.from "late")] emptyBuf in
  let w' := withConn (fun c => {| socket := socket c;
                                  err := Some (Error "ECONNRESET");
                                  ended := ended c |})
                     (worldWith [OnData (Buf.from "late")] emptyBuf) in
  soRead w = Throw (Error "ECONNRESET") w'
  /\ soRead w' = Throw (Error "ECONNRESET") w'.
Proof.
  intros w w'.
  assert (H : soRead w = Throw (Error "ECONNRESET") w') by reflexivity.
  split; [exact H |].
  exact (proj1 (soRead_latches w w') _ H).
Defined.

(** ** The invariant of the loop *)

(** X24.  The loop of [serveClient] keeps the connection well formed
    however it ends: the buffer's length stays between 0 and the size of its
    backing array, and no known-length reader is left expecting a negative
    number of bytes.  So no [bufPop] of the server asks for more than is
    unread. *)
Theorem serveLoop_keeps_worldOk
    (splitLines : Buffer -> list Buffer)
    (parseRequestLine : option Buffer -> exn + (string * Buffer * string))
    (validateHeader : Buffer -> bool)
    (parseDec : string -> option Z)
    (encodeHTTPResp : HTTPRes -> Buffer)
    (fuel : nat) (w : World) :
  worldOk w ->
  match serveLoop splitLines parseRequestLine validateHeader parseDec encodeHTTPResp
                  fuel w with
  | Ret _ w' | Throw _ w' | Pending w' => worldOk w'
  | OutOfFuel => True
  end.
Proof.
  apply (keepsOk_serveLoop splitLines parseRequestLine validateHeader parseDec
                           encodeHTTPResp fuel).
Qed.

Lemma serveLoop_keeps_worldOk_witness :
  let w := worldWith [OnData (Buf.from "GET /"); OnEnd] emptyBuf in
  worldOk w
  /\ match serveLoop noLines rejectLine anyHeader noNumber headersOnly 2 w with
     | Ret _ w' | Throw _ w' | Pending w' => worldOk w'
     | OutOfFuel => True
     end.
Proof.
  intros w.
  assert (H : worldOk w).
  { split; [unfold bufOk; vm_compute; split; discriminate | constructor]. }
  split; [exact H |].
  exact (serveLoop_keeps_worldOk noLines rejectLine anyHeader noNumber headersOnly 2 w H).
Defined.

End HttpServerMore.

(** * Further facts about [src/server.ts] *)

Module LineConnFacts.
Import HttpProps MoreProps BufFacts HttpServerFacts HttpServerMore.
#[local] Open Scope js_scope.
Import LineServer LineConn.

(** ** The buffer of the line server *)

(** The [bufPush] and [bufPop] of [server.ts] do to [data] and [length]
    what those of [httpServer.ts] do, and leave [start] alone. *)
Lemma line_buffer_ops_agree (b : DynBuf) :
  (forall d, bufPush d b = withStart (start b) (HttpServer.bufPush d (forget b)))
  /\ (forall n, bufPop n b = withStart (start b) (HttpServer.bufPop n (forget b))).
Proof.
  destruct b as [dat len st]. split.
  - intros d.
    cbv [bufPush HttpServer.bufPush bind gets id forget copyInto ret throw modify
         withStart data length start HttpServer.data HttpServer.length].
    destruct (len <? len + Buf.blen d).
    + destruct (Buf.copy dat _ 0); [| reflexivity].
      destruct (Buf.copy d _ len); reflexivity.
    + destruct (Buf.copy d dat len); reflexivity.
  - intros n. reflexivity.
Qed.

(** X16.  In the line server too, [bufPush] appends: on a buffer whose
    length lies within its backing array it runs without error, the unread
    content becomes the old content followed by the pushed bytes, the
    capacity holds the new length, and the read offset [start] is left as it
    was. *)
Theorem line_bufPush_appends (d : Buffer) (b : DynBuf) :
  bufOk (forget b) ->
  exists b', bufPush d b = Ret tt b'
             /\ lineView b' = lineView b ++ d
             /\ length b' = length b + Buf.blen d
             /\ length b' <= Buf.blen (data b')
             /\ start b' = start b.
Proof.
  intros Hok. rewrite (proj1 (line_buffer_ops_agree b) d).
  destruct (bufPush_ok d (forget b) Hok) as (hb & -> & Hv & Hl & Hok').
  eexists. split; [reflexivity |]. cbn [withStart data length start].
  repeat split; try assumption. apply Hok'.
Qed.

Lemma line_bufPush_appends_witness :
  bufOk (forget emptyBuf)
  /\ exists b', bufPush (Buf.from ("PING" ++ LF)) emptyBuf = Ret tt b'
                /\ lineView b' = lineView emptyBuf ++ Buf.from ("PING" ++ LF)
                /\ length b' = length emptyBuf + Buf.blen (Buf.from ("PING" ++ LF))
                /\ length b' <= Buf.blen (data b')
                /\ start b' = start emptyBuf.
Proof.
  assert (H : bufOk (forget emptyBuf)) by (unfold bufOk; vm_compute; split; discriminate).
  split; [exact H |].
  exact (line_bufPush_appends (Buf.from ("PING" ++ LF)) emptyBuf H).
Defined.

(** ** The framer of the line server *)

Lemma occursIn_single (c : byte) (l : Buffer) : occursIn [c] l <-> In c l.
Proof.
  split.
  - intros (pre & post & ->). apply in_or_app. right. left. reflexivity.
  - intros H. apply in_split in H. destruct H as (pre & post & ->).
    exists pre, post. reflexivity.
Qed.

Lemma lineView_ok (b : DynBuf) :
  bufOk (forget b) ->
  lineView b = firstn (Z.to_nat (length b)) (data b)
  /\ Buf.blen (lineView b) = length b.
Proof. intros H. exact (view_ok (forget b) H). Qed.

(** What [cutMessage] does when the first line feed is at the end of [pre]. *)
Lemma cutMessage_line (b : DynBuf) (pre post : Buffer) :
  bufOk (forget b) ->
  lineView b = pre ++ [x0a] ++ post ->
  ~ In x0a pre ->
  cutMessage b
  = Ret (Some (pre ++ [x0a]))
        (if Buf.blen (data b) <? 2 * (Buf.blen pre + 1)
         then {| data := Buf.subarray (data b) (Buf.blen pre + 1)
                                      (Buf.blen pre + 1 + length b);
                 length := length b; start := 0 |}
         else {| data := data b; length := length b; start := Buf.blen pre + 1 |}).
Proof.
  intros Hok Hview Hfirst.
  destruct (lineView_ok b Hok) as [Hv Hvl].
  pose proof (blen_nonneg pre) as Hpre. pose proof (blen_nonneg post) as Hpost.
  assert (Hidx : Buf.indexOf (Buf.subarray (data b) 0 (length b)) (Buf.from LF)
                 = Buf.blen pre).
  { fold (lineView b). rewrite Hview. unfold Buf.indexOf.
    change (Buf.from LF) with ([] ++ [x0a]).
    rewrite (indexOfFrom_first [] x0a pre post); [lia |].
    rewrite app_nil_r. simpl app. rewrite occursIn_single. exact Hfirst. }
  assert (Hlen : Buf.blen pre + 1 <= length b).
  { rewrite <- Hvl, Hview, !blen_app. change (Buf.blen [x0a]) with 1. lia. }
  assert (Hmsg : Buf.subarray (data b) 0 (Buf.blen pre + 1) = pre ++ [x0a]).
  { rewrite subarray_front by lia.
    replace (firstn (Z.to_nat (Buf.blen pre + 1)) (data b))
      with (firstn (Z.to_nat (Buf.blen pre + 1)) (lineView b))
      by (rewrite Hv, firstn_firstn; f_equal; lia).
    rewrite Hview, app_assoc. rewrite firstn_app.
    replace (Z.to_nat (Buf.blen pre + 1) - List.length (pre ++ [x0a]))%nat
      with 0%nat by (rewrite length_app; unfold Buf.blen; simpl; lia).
    simpl firstn at 2. rewrite app_nil_r. apply firstn_all2.
    rewrite length_app. unfold Buf.blen. simpl. lia. }
  unfold cutMessage. unfold bind at 1. unfold gets at 1, id.
  rewrite Hidx. destruct (Buf.blen pre <? 0) eqn:E; [apply Z.ltb_lt in E; lia |].
  rewrite Hmsg. cbv [bind modify gets id ret]. cbn [data length start].
  replace (length b - (Buf.blen pre + 1 - (Buf.blen pre + 1))) with (length b) by lia.
  destruct (Buf.blen (data b) <? 2 * (Buf.blen pre + 1)); reflexivity.
Qed.

(** X17.  [cutMessage] of the line server returns [null] and leaves the
    buffer alone when the unread content has no line feed; otherwise the
    message is the unread content up to and including the first line feed,
    and [buf.length] is what it was before the call. *)
Theorem line_cutMessage_frames (b : DynBuf) :
  bufOk (forget b) ->
  (~ In x0a (lineView b) -> cutMessage b = Ret None b)
  /\ (forall pre post,
         lineView b = pre ++ [x0a] ++ post -> ~ In x0a pre ->
         exists b', cutMessage b = Ret (Some (pre ++ [x0a])) b'
                    /\ length b' = length b).
Proof.
  intros Hok. split.
  - intros Hno. rewrite <- occursIn_single in Hno.
    apply indexOf_absent_iff in Hno. unfold lineView in Hno.
    unfold cutMessage, bind, gets, id. cbv beta iota.
    change (Buf.from LF) with [x0a]. rewrite Hno. reflexivity.
  - intros pre post Hview Hfirst.
    rewrite (cutMessage_line b pre post Hok Hview Hfirst).
    eexists. split; [reflexivity |].
    destruct (Buf.blen (data b) <? 2 * (Buf.blen pre + 1)); reflexivity.
Qed.

Lemma line_cutMessage_frames_witness :
  let b := lineBufferOf (Buf.from ("PING" ++ LF ++ "PO")) in
  (bufOk (forget b)
   /\ lineView b = Buf.from "PING" ++ [x0a] ++ Buf.from "PO"
   /\ ~ In x0a (Buf.from "PING"))
  /\ exists b', cutMessage b = Ret (Some (Buf.from "PING" ++ [x0a])) b'
                /\ length b' = length b.
Proof.
  intros b.
  assert (H1 : bufOk (forget b)) by (unfold bufOk; vm_compute; split; discriminate).
  assert (H2 : lineView b = Buf.from "PING" ++ [x0a] ++ Buf.from "PO") by reflexivity.
  assert (H3 : ~ In x0a (Buf.from "PING")).
  { rewrite <- occursIn_single. apply indexOf_absent_iff. reflexivity. }
  split; [split; [exact H1 | split; [exact H2 | exact H3]] |].
  exact (proj2 (line_cutMessage_frames b H1) _ _ H2 H3).
Defined.

(** X18.  While the cut message ends in the first half of the backing
    array, [cutMessage] of the line server only sets [buf.start]: [data] and
    [length] stay, and calling it again returns the same message and the
    same buffer. *)
Theorem line_cutMessage_repeats (b : DynBuf) (pre post : Buffer) :
  bufOk (forget b) ->
  lineView b = pre ++ [x0a] ++ post ->
  ~ In x0a pre ->
  2 * (Buf.blen pre + 1) <= Buf.blen (data b) ->
  let b' := {| data := data b; length := length b; start := Buf.blen pre + 1 |} in
  cutMessage b = Ret (Some (pre ++ [x0a])) b'
  /\ cutMessage b' = Ret (Some (pre ++ [x0a])) b'.
Proof.
  intros Hok Hview Hfirst Hhalf b'.
  assert (E : (Buf.blen (data b) <? 2 * (Buf.blen pre + 1)) = false)
    by (apply Z.ltb_ge; exact Hhalf).
  split.
  - rewrite (cutMessage_line b pre post Hok Hview Hfirst), E. reflexivity.
  - rewrite (cutMessage_line b' pre post Hok Hview Hfirst).
    cbn [data length b']. rewrite E. reflexivity.
Qed.

Lemma line_cutMessage_repeats_witness :
  let b := lineBufferOf (Buf.from ("PING" ++ LF)) in
  let b' := {| data := data b; length := length b; start := 4 + 1 |} in
  (bufOk (forget b)
   /\ lineView b = Buf.from "PING" ++ [x0a] ++ []
   /\ ~ In x0a (Buf.from "PING")
   /\ 2 * (Buf.blen (Buf.from "PING") + 1) <= Buf.blen (data b))
  /\ cutMessage b = Ret (Some (Buf.from "PING" ++ [x0a])) b'
  /\ cutMessage b' = Ret (Some (Buf.from "PING" ++ [x0a])) b'.
Proof.
  intros b b'.
  assert (H1 : bufOk (forget b)) by (unfold bufOk; vm_compute; split; discriminate).
  assert (H2 : lineView b = Buf.from "PING" ++ [x0a] ++ []) by reflexivity.
  assert (H3 : ~ In x0a (Buf.from "PING")).
  { rewrite <- occursIn_single. apply indexOf_absent_iff. reflexivity. }
  assert (H4 : 2 * (Buf.blen (Buf.from "PING") + 1) <= Buf.blen (data b))
    by (vm_compute; discriminate).
  split; [split; [exact H1 | split; [exact H2 | split; [exact H3 | exact H4]]] |].
  exact (line_cutMessage_repeats b (Buf.from "PING") [] H1 H2 H3 H4).
Defined.

(** X19.  When the cut message ends past the middle of the backing array,
    [cutMessage] of the line server compacts: [data] becomes what followed
    the message, up to the end of the old backing array, and [start] is 0.
    [buf.length] keeps its old value, which is now larger than the backing
    array. *)
Theorem line_cutMessage_compacts (b : DynBuf) (pre post : Buffer) :
  bufOk (forget b) ->
  lineView b = pre ++ [x0a] ++ post ->
  ~ In x0a pre ->
  Buf.blen (data b) < 2 * (Buf.blen pre + 1) ->
  exists b',
    cutMessage b = Ret (Some (pre ++ [x0a])) b'
    /\ data b' = post ++ skipn (Z.to_nat (length b)) (data b)
    /\ start b' = 0
    /\ length b' = length b
    /\ Buf.blen (data b') < length b'.
Proof.
  intros Hok Hview Hfirst Hhalf.
  assert (E : (Buf.blen (data b) <? 2 * (Buf.blen pre + 1)) = true)
    by (apply Z.ltb_lt; exact Hhalf).
  rewrite (cutMessage_line b pre post Hok Hview Hfirst), E.
  eexists. split; [reflexivity |]. cbn [data start length].
  destruct (lineView_ok b Hok) as [Hv Hvl].
  destruct Hok as [H0 H1]. cbn [forget HttpServer.length HttpServer.data] in H0, H1.
  pose proof (blen_nonneg pre) as Hpre. pose proof (blen_nonneg post) as Hpost.
  assert (Hlen : length b = Buf.blen pre + 1 + Buf.blen post).
  { rewrite <- Hvl, Hview, !blen_app. change (Buf.blen [x0a]) with 1. lia. }
  assert (Hdata : Buf.subarray (data b) (Buf.blen pre + 1) (Buf.blen pre + 1 + length b)
                  = skipn (Z.to_nat (Buf.blen pre + 1)) (data b)).
  { unfold Buf.subarray, Buf.relIndex.
    destruct (Buf.blen pre + 1 <? 0) eqn:E1; [apply Z.ltb_lt in E1; lia |].
    destruct (Buf.blen pre + 1 + length b <? 0) eqn:E2; [apply Z.ltb_lt in E2; lia |].
    rewrite (Z.min_l (Buf.blen pre + 1)) by lia.
    rewrite (Z.min_r (Buf.blen pre + 1 + length b)) by lia.
    apply firstn_all2. rewrite length_skipn. unfold Buf.blen in *. lia. }
  rewrite Hdata.
  assert (Hsplit : skipn (Z.to_nat (Buf.blen pre + 1)) (data b)
                   = post ++ skipn (Z.to_nat (length b)) (data b)).
  { rewrite <- (firstn_skipn (Z.to_nat (length b)) (data b)) at 1.
    rewrite <- Hv, Hview, app_assoc, <- app_assoc.
    rewrite skipn_app.
    replace (Z.to_nat (Buf.blen pre + 1) - List.length (pre ++ [x0a]))%nat
      with 0%nat by (rewrite length_app; unfold Buf.blen; simpl; lia).
    rewrite skipn_all2 by (rewrite length_app; unfold Buf.blen; simpl; lia).
    reflexivity. }
  split; [exact Hsplit |]. split; [reflexivity |]. split; [reflexivity |].
  unfold Buf.blen at 1. rewrite length_skipn. unfold Buf.blen in *. lia.
Qed.

Lemma line_cutMessage_compacts_witness :
  let b := lineBufferOf (repeat x41 16 ++ [x0a] ++ Buf.from "rest") in
  (bufOk (forget b)
   /\ lineView b = repeat x41 16 ++ [x0a] ++ Buf.from "rest"
   /\ ~ In x0a (repeat x41 16)
   /\ Buf.blen (data b) < 2 * (Buf.blen (repeat x41 16) + 1))
  /\ exists b',
      cutMessage b = Ret (Some (repeat x41 16 ++ [x0a])) b'
      /\ data b' = Buf.from "rest" ++ skipn (Z.to_nat (length b)) (data b)
      /\ start b' = 0
      /\ length b' = length b
      /\ Buf.blen (data b') < length b'.
Proof.
  intros b.
  assert (H1 : bufOk (forget b)) by (unfold bufOk; vm_compute; split; discriminate).
  assert (H2 : lineView b = repeat x41 16 ++ [x0a] ++ Buf.from "rest") by reflexivity.
  assert (H3 : ~ In x0a (repeat x41 16)).
  { rewrite <- occursIn_single. apply indexOf_absent_iff. reflexivity. }
  assert (H4 : Buf.blen (data b) < 2 * (Buf.blen (repeat x41 16) + 1))
    by (vm_compute; reflexivity).
  split; [split; [exact H1 | split; [exact H2 | split; [exact H3 | exact H4]]] |].
  exact (line_cutMessage_compacts b _ _ H1 H2 H3 H4).
Defined.

(** ** The loop of the line server *)

Lemma line_bufPush_nil (b : DynBuf) : bufOk (forget b) -> bufPush [] b = Ret tt b.
Proof.
  intros Hok. rewrite (proj1 (line_buffer_ops_agree b) []).
  rewrite (bufPush_nil (forget b) Hok). destruct b; reflexivity.
Qed.

Lemma line_serveLoop_message (fuel : nat) (w : World) (msg : Buffer) (b1 : DynBuf) :
  cutMessage (buf w) = Ret (Some msg) b1 ->
  serveLoop (S fuel) w
  = if Buf.equals msg (Buf.from ("quit" ++ LF))
    then Ret tt (withConn (fun c =>
           {| HttpServer.socket :=
                {| HttpServer.incoming := HttpServer.incoming (HttpServer.socket c);
                   HttpServer.written := HttpServer.written (HttpServer.socket c);
                   HttpServer.writeErr := HttpServer.writeErr (HttpServer.socket c);
                   HttpServer.destroyed := true |};
              HttpServer.err := HttpServer.err c;
              HttpServer.ended := HttpServer.ended c |}) (setBuf b1 w))
    else serveLoop fuel (setBuf b1 w).
Proof.
  intros H. set (q := Buf.equals msg (Buf.from ("quit" ++ LF))).
  simpl serveLoop. unfold bind at 1. unfold onBuf at 1, zoom. rewrite H.
  change (Buf.equals msg _) with q. destruct q; reflexivity.
Qed.

(** X20.  When the first unread line is ["quit\n"], the loop of the line
    server destroys the socket and returns; nothing is written to the
    socket, [soWrite] having an empty body in [server.ts]. *)
Theorem line_serveLoop_quit (fuel : nat) (w : World) (post : Buffer) :
  bufOk (forget (buf w)) ->
  lineView (buf w) = Buf.from "quit" ++ [x0a] ++ post ->
  exists w',
    serveLoop (S fuel) w = Ret tt w'
    /\ HttpServer.destroyed (HttpServer.socket (conn w')) = true
    /\ HttpServer.written (HttpServer.socket (conn w'))
       = HttpServer.written (HttpServer.socket (conn w))
    /\ HttpServer.incoming (HttpServer.socket (conn w'))
       = HttpServer.incoming (HttpServer.socket (conn w)).
Proof.
  intros Hok Hview.
  assert (Hfirst : ~ In x0a (Buf.from "quit")).
  { rewrite <- occursIn_single. apply indexOf_absent_iff. reflexivity. }
  pose proof (cutMessage_line (buf w) _ post Hok Hview Hfirst) as Hcut.
  rewrite (line_serveLoop_message fuel w _ _ Hcut).
  eexists. split; [reflexivity |]. repeat split.
Qed.

Lemma line_serveLoop_quit_witness :
  let w := lineWorld [] (lineBufferOf (Buf.from ("quit" ++ LF ++ "more"))) in
  (bufOk (forget (buf w))
   /\ lineView (buf w) = Buf.from "quit" ++ [x0a] ++ Buf.from "more")
  /\ exists w',
      serveLoop 1 w = Ret tt w'
      /\ HttpServer.destroyed (HttpServer.socket (conn w')) = true
      /\ HttpServer.written (HttpServer.socket (conn w'))
         = HttpServer.written (HttpServer.socket (conn w))
      /\ HttpServer.incoming (HttpServer.socket (conn w'))
         = HttpServer.incoming (HttpServer.socket (conn w)).
Proof.
  intros w.
  assert (H1 : bufOk (forget (buf w))) by (unfold bufOk; vm_compute; split; discriminate).
  assert (H2 : lineView (buf w) = Buf.from "quit" ++ [x0a] ++ Buf.from "more")
    by reflexivity.
  split; [split; [exact H1 | exact H2] |].
  exact (line_serveLoop_quit 0 w _ H1 H2).
Defined.

(** X21.  Once the buffer holds a complete line other than ["quit\n"] that
    ends in the first half of the backing array, the loop of the line
    server never ends and never reads the socket again: every iteration
    cuts the same line and writes nothing, whatever the bound on the number
    of iterations. *)
Theorem line_serveLoop_spins (w : World) (pre post : Buffer) :
  bufOk (forget (buf w)) ->
  lineView (buf w) = pre ++ [x0a] ++ post ->
  ~ In x0a pre ->
  2 * (Buf.blen pre + 1) <= Buf.blen (data (buf w)) ->
  Buf.equals (pre ++ [x0a]) (Buf.from ("quit" ++ LF)) = false ->
  forall fuel, serveLoop fuel w = OutOfFuel.
Proof.
  intros Hok Hview Hfirst Hhalf Hquit fuel. revert w Hok Hview Hhalf.
  induction fuel as [| fuel IH]; intros w Hok Hview Hhalf; [reflexivity |].
  assert (E : (Buf.blen (data (buf w)) <? 2 * (Buf.blen pre + 1)) = false)
    by (apply Z.ltb_ge; exact Hhalf).
  pose proof (cutMessage_line (buf w) pre post Hok Hview Hfirst) as Hcut.
  rewrite E in Hcut.
  rewrite (line_serveLoop_message fuel w _ _ Hcut), Hquit.
  apply IH; assumption.
Qed.

Lemma line_serveLoop_spins_witness :
  let w := lineWorld [HttpServer.OnData (Buf.from ("quit" ++ LF))]
                     (lineBufferOf (Buf.from ("PING" ++ LF))) in
  (bufOk (forget (buf w))
   /\ lineView (buf w) = Buf.from "PING" ++ [x0a] ++ []
   /\ ~ In x0a (Buf.from "PING")
   /\ 2 * (Buf.blen (Buf.from "PING") + 1) <= Buf.blen (data (buf w))
   /\ Buf.equals (Buf.from "PING" ++ [x0a]) (Buf.from ("quit" ++ LF)) = false)
  /\ forall fuel, serveLoop fuel w = OutOfFuel.
Proof.
  intros w.
  assert (H1 : bufOk (forget (buf w))) by (unfold bufOk; vm_compute; split; discriminate).
  assert (H2 : lineView (buf w) = Buf.from "PING" ++ [x0a] ++ []) by reflexivity.
  assert (H3 : ~ In x0a (Buf.from "PING")).
  { rewrite <- occursIn_single. apply indexOf_absent_iff. reflexivity. }
  assert (H4 : 2 * (Buf.blen (Buf.from "PING") + 1) <= Buf.blen (data (buf w)))
    by (vm_compute; discriminate).
  assert (H5 : Buf.equals (Buf.from "PING" ++ [x0a]) (Buf.from ("quit" ++ LF)) = false)
    by reflexivity.
  split; [split; [exact H1 | split; [exact H2 | split; [exact H3 | split;
          [exact H4 | exact H5]]]] |].
  exact (line_serveLoop_spins w _ _ H1 H2 H3 H4 H5).
Defined.

(** X22.  At end of stream the loop of the line server returns normally
    whatever the buffer holds: an unfinished line is dropped without an
    error. *)
Theorem line_serveLoop_eof (fuel : nat) (w : World) (d : Buffer)
        (c' : HttpServer.TCPConn) :
  bufOk (forget (buf w)) ->
  ~ In x0a (lineView (buf w)) ->
  soRead (conn w) = Ret d c' ->
  Buf.blen d = 0 ->
  serveLoop (S fuel) w = Ret tt {| conn := c'; buf := buf w |}.
Proof.
  intros Hok Hno Hread Hd.
  assert (Hcut : cutMessage (buf w) = Ret None (buf w)).
  { rewrite <- occursIn_single in Hno.
    apply indexOf_absent_iff in Hno. unfold lineView in Hno.
    unfold cutMessage, bind, gets, id. cbv beta iota.
    change (Buf.from LF) with [x0a]. rewrite Hno. reflexivity. }
  apply blen_zero in Hd. subst d.
  simpl serveLoop. unfold bind, onBuf, zoom. rewrite Hcut.
  cbn [conn setBuf buf]. rewrite Hread. cbn [buf].
  rewrite (line_bufPush_nil _ Hok). reflexivity.
Qed.

Lemma line_serveLoop_eof_witness :
  let w := lineWorld [HttpServer.OnEnd] (lineBufferOf (Buf.from "PIN")) in
  let c' := {| HttpServer.socket := socketWith [];
               HttpServer.err := None; HttpServer.ended := true |} in
  (bufOk (forget (buf w))
   /\ ~ In x0a (lineView (buf w))
   /\ soRead (conn w) = Ret [] c'
   /\ Buf.blen [] = 0)
  /\ serveLoop 1 w = Ret tt {| conn := c'; buf := buf w |}.
Proof.
  intros w c'.
  assert (H1 : bufOk (forget (buf w))) by (unfold bufOk; vm_compute; split; discriminate).
  assert (H2 : ~ In x0a (lineView (buf w))).
  { rewrite <- occursIn_single. apply indexOf_absent_iff. reflexivity. }
  assert (H3 : soRead (conn w) = Ret [] c') by reflexivity.
  assert (H4 : Buf.blen [] = 0) by reflexivity.
  split; [split; [exact H1 | split; [exact H2 | split; [exact H3 | exact H4]]] |].
  exact (line_serveLoop_eof 0 w [] c' H1 H2 H3 H4).
Defined.

(** X23.  [newConn] of the line server never throws, and whenever it
    returns the socket has been destroyed. *)
Theorem line_newConn_never_throws (fuel : nat) (s : HttpServer.Socket) :
  match newConn fuel s with
  | Ret _ w => HttpServer.destroyed (HttpServer.socket (conn w)) = true
  | Throw _ _ => False
  | Pending _ | OutOfFuel => True
  end.
Proof.
  unfold newConn, tryFinally, tryCatch.
  destruct (serveClient fuel s) as [a w | e w | w |]; try exact I; reflexivity.
Qed.

End LineConnFacts.
